(** * Spotify songs search: the filter of [app.py], verified

    [app.py] is a Streamlit page over a pandas DataFrame read from
    [updated_spotify_data.csv].  This development embeds

    - the part of Python's [re] that [Series.str.contains] reaches
      (pattern compilation and [search] under [re.IGNORECASE]),
    - the pandas operations the page uses (boolean masks, boolean
      indexing, [isin], [unique], [nunique], [min], [max], [copy]),
    - the page itself ([load_songs], [main]) as a program in a small
      state-and-exception monad over a store of DataFrame objects and
      the list of Streamlit calls made so far,

    and proves the properties of the filter.

    Modelling conventions.  Text is [string]; a character is a code
    point below 256.  A text cell of the CSV is [option string], [None]
    being pandas' NaN, [Some s] a cell that [read_csv] keeps as text.
    A text column is read with dtype [object] when it has no row or at
    least one text cell, and with a numeric dtype otherwise; the frames
    derived from the dataset keep its dtypes.  [year] is an integer
    column, [genre] a text column without missing values.  The table
    given to [load_songs] is the one [pd.read_csv] returns, and the
    widgets record holds what the widgets return: a run in which
    [read_csv] or a widget raises is not a run of the model. *)

From Stdlib Require Import ZArith Ascii String.
From stdpp Require Import base tactics option numbers list.

Local Open Scope Z_scope.

(** ** Characters and case folding *)

Module Chars.

Definition code (c : ascii) : N := N_of_ascii c.

(** [str.lower] on one code point below 256: the ASCII capitals and
    the Latin-1 capitals U+00C0..U+00DE, the multiplication sign
    U+00D7 left alone, move up by 32. *)
Definition lower (c : ascii) : ascii :=
  let n := code c in
  if ((65 <=? n) && (n <=? 90))%N
     || ((192 <=? n) && (n <=? 222) && negb (n =? 215))%N
  then ascii_of_N (n + 32) else c.

(** Equality of two characters under [re.IGNORECASE]. *)
Definition ci_eqb (a b : ascii) : bool := Ascii.eqb (lower a) (lower b).

Definition newline : ascii := ascii_of_N 10.

Definition is_ascii_alnum (c : ascii) : bool :=
  let n := code c in
  (((48 <=? n) && (n <=? 57)) || ((65 <=? n) && (n <=? 90))
   || ((97 <=? n) && (n <=? 122)))%N.

Definition chars (s : string) : list ascii := list_ascii_of_string s.

End Chars.

(** ** Outcomes

    A Python call returns a value or raises.  [NotModelled] is not an
    exception of Python: it marks a pattern written in syntax that the
    regular-expression fragment below leaves out, about which the model
    says nothing. *)

Inductive fault :=
| ReError        (* [re.error], raised by [re.compile] *)
| Unbound        (* a reference to an object that is not in the store *)
| NotModelled
| AttributeError.  (* [.str] on a column that is not of text *)

Inductive result (A : Type) :=
| Ok (a : A)
| Raise (e : fault).
Arguments Ok {A} a.
Arguments Raise {A} e.

(** ** Regular expressions: the fragment of Python's [re] in the model *)

Module Re.
Import Chars.

Inductive regex :=
| Void                         (* matches nothing; arises from derivatives *)
| Eps                          (* the empty pattern *)
| Lit (c : ascii)              (* LITERAL, compared under IGNORECASE *)
| Dot                          (* ANY: every character but newline *)
| Cat (r1 r2 : regex)
| Alt (r1 r2 : regex)          (* BRANCH *)
| Star (r : regex).            (* MAX_REPEAT 0 MAXREPEAT *)

(** [+] and [?] are the repeats (1, MAXREPEAT) and (0, 1). *)
Definition Plus (r : regex) : regex := Cat r (Star r).
Definition Opt (r : regex) : regex := Alt r Eps.

(** *** Parsing

    The parser reads the pattern left to right as [sre_parse] does,
    with the nesting of groups kept on an explicit stack.  A frame
    holds the finished alternatives of a group and the items of the
    alternative being read, both most recent first; [rep] tells
    whether the last item is a repeat. *)

Record frame := Frame {
  alts : list regex;
  items : list regex;
  rep : bool
}.

Definition empty_frame : frame := Frame [] [] false.

(** The items of one alternative, in reading order. *)
Definition branch (its : list regex) : regex :=
  fold_left (fun acc r => Cat r acc) its Eps.

(** The alternatives of a group, in reading order. *)
Definition close_frame (f : frame) : regex :=
  fold_left (fun acc r => Alt r acc) (alts f) (branch (items f)).

Definition push_item (r : regex) (f : frame) : frame :=
  Frame (alts f) (r :: items f) false.

Definition next_alt (f : frame) : frame :=
  Frame (branch (items f) :: alts f) [] false.

(** A repeat applies to the last item; with nothing before it the
    pattern is rejected ("nothing to repeat"); after a repeat, [*] is
    rejected ("multiple repeat") while [?] and [+] ask for a lazy or
    possessive repeat, which the fragment leaves out. *)
Definition repeat (q : regex -> regex) (again : fault) (f : frame)
  : result frame :=
  match items f with
  | [] => Raise ReError
  | r :: its =>
      if rep f then Raise again
      else Ok (Frame (alts f) (q r :: its) true)
  end.

Fixpoint parse (s : list ascii) (stack : list frame) (top : frame)
  : result regex :=
  match s with
  | [] =>
      match stack with
      | [] => Ok (close_frame top)
      | _ :: _ => Raise ReError            (* missing ) *)
      end
  | c :: s' =>
      if Ascii.eqb c "\" then
        match s' with
        | [] => Raise ReError              (* bad escape (end of pattern) *)
        | e :: s'' =>
            if is_ascii_alnum e then Raise NotModelled
            else parse s'' stack (push_item (Lit e) top)
        end
      else if Ascii.eqb c "(" then
        match s' with
        | "?"%char :: _ => Raise NotModelled
        | _ => parse s' (top :: stack) empty_frame
        end
      else if Ascii.eqb c ")" then
        match stack with
        | [] => Raise ReError              (* unbalanced parenthesis *)
        | up :: stack' => parse s' stack' (push_item (close_frame top) up)
        end
      else if Ascii.eqb c "|" then parse s' stack (next_alt top)
      else if Ascii.eqb c "*" then
        match repeat Star ReError top with
        | Ok f => parse s' stack f
        | Raise e => Raise e
        end
      else if Ascii.eqb c "+" then
        match repeat Plus NotModelled top with
        | Ok f => parse s' stack f
        | Raise e => Raise e
        end
      else if Ascii.eqb c "?" then
        match repeat Opt NotModelled top with
        | Ok f => parse s' stack f
        | Raise e => Raise e
        end
      else if Ascii.eqb c "." then parse s' stack (push_item Dot top)
      else if Ascii.eqb c "^" || Ascii.eqb c "$"
              || Ascii.eqb c "[" || Ascii.eqb c "{"
      then Raise NotModelled
      else parse s' stack (push_item (Lit c) top)
  end.

(** [re.compile(pat, flags=re.IGNORECASE)]. *)
Definition compile (pat : string) : result regex :=
  parse (chars pat) [] empty_frame.

(** *** Matching *)

Fixpoint nullable (r : regex) : bool :=
  match r with
  | Void | Lit _ | Dot => false
  | Eps | Star _ => true
  | Cat r1 r2 => nullable r1 && nullable r2
  | Alt r1 r2 => nullable r1 || nullable r2
  end.

Fixpoint deriv (c : ascii) (r : regex) : regex :=
  match r with
  | Void | Eps => Void
  | Lit a => if ci_eqb a c then Eps else Void
  | Dot => if Ascii.eqb c newline then Void else Eps
  | Cat r1 r2 =>
      if nullable r1 then Alt (Cat (deriv c r1) r2) (deriv c r2)
      else Cat (deriv c r1) r2
  | Alt r1 r2 => Alt (deriv c r1) (deriv c r2)
  | Star r1 => Cat (deriv c r1) (Star r1)
  end.

(** Some prefix of [s] is matched by [r]: [Pattern.match]. *)
Fixpoint match_prefix (s : list ascii) (r : regex) : bool :=
  nullable r ||
  match s with
  | [] => false
  | c :: s' => match_prefix s' (deriv c r)
  end.

(** Some substring of [s] is matched by [r]: [Pattern.search] gives a
    match object rather than [None]. *)
Fixpoint search_chars (r : regex) (s : list ascii) : bool :=
  match_prefix s r ||
  match s with
  | [] => false
  | _ :: s' => search_chars r s'
  end.

Definition search (r : regex) (s : string) : bool :=
  search_chars r (chars s).

(** *** What a pattern matches

    The strings a pattern matches in full, as the documentation of
    [re] gives them; [match_prefix] and [search_chars] are proved
    against it below. *)
Inductive matches : regex -> list ascii -> Prop :=
| m_eps : matches Eps []
| m_lit a c : ci_eqb a c = true -> matches (Lit a) [c]
| m_dot c : Ascii.eqb c newline = false -> matches Dot [c]
| m_cat r1 r2 s1 s2 :
    matches r1 s1 -> matches r2 s2 -> matches (Cat r1 r2) (s1 ++ s2)
| m_alt_l r1 r2 s : matches r1 s -> matches (Alt r1 r2) s
| m_alt_r r1 r2 s : matches r2 s -> matches (Alt r1 r2) s
| m_star_nil r : matches (Star r) []
| m_star_app r s1 s2 :
    matches r s1 -> matches (Star r) s2 -> matches (Star r) (s1 ++ s2).

End Re.

(** ** The data model *)

(** One row of [updated_spotify_data.csv]. *)
Record Song := {
  id : Z;
  artist_name : option string;
  track_name : option string;
  track_id : option string;
  year : Z;
  genre : string
}.

(** A DataFrame: its rows in index order. *)
Definition DataFrame := list Song.

(** ** pandas *)

Module Pd.

(** The dtype [read_csv] gives a text column: [object] ([true]) when
    the column has no row or some cell of text, a numeric dtype when
    every cell of a column with rows is missing. *)
Definition is_text (col : list (option string)) : bool :=
  match col with
  | [] => true
  | _ :: _ =>
      existsb (fun cell => match cell with Some _ => true | None => false end)
        col
  end.

(** The dtypes of the two text columns of a frame. *)
Record dtypes := {
  artist_is_text : bool;
  track_is_text : bool
}.

(** [Series.str.contains(pat, case=False, na=False)], with [regex]
    left at its default [True].  [.str] raises on a column that is not
    of text.  On a column without rows the result is the empty mask
    and the pattern is not looked at; otherwise the pattern is compiled
    with [re.IGNORECASE], a cell is kept when [search] finds a match in
    it, and a missing cell gives [na]. *)
Definition str_contains (text : bool) (pat : string)
    (col : list (option string)) : result (list bool) :=
  if text then
    match col with
    | [] => Ok []
    | _ :: _ =>
        match Re.compile pat with
        | Ok r =>
            Ok (map (fun cell =>
                       match cell with
                       | Some s => Re.search r s
                       | None => false
                       end) col)
        | Raise e => Raise e
        end
    end
  else Raise AttributeError.

(** [col >= v], [col <= v] and [m1 & m2] on Series. *)
Definition ge (col : list Z) (v : Z) : list bool := map (fun y => v <=? y) col.
Definition le (col : list Z) (v : Z) : list bool := map (fun y => y <=? v) col.

Fixpoint mask_and (m1 m2 : list bool) : list bool :=
  match m1, m2 with
  | b1 :: m1', b2 :: m2' => (b1 && b2) :: mask_and m1' m2'
  | _, _ => []
  end.

(** [col.isin(values)]. *)
Definition isin (col : list string) (values : list string) : list bool :=
  map (fun g => existsb (String.eqb g) values) col.

(** [df[mask]]: the rows at which the mask is [True], in order.  The
    masks of [app.py] are computed from the frame they index, so they
    have its length. *)
Fixpoint getitem_mask (rows : DataFrame) (mask : list bool) : DataFrame :=
  match rows, mask with
  | r :: rows', b :: mask' =>
      if b then r :: getitem_mask rows' mask' else getitem_mask rows' mask'
  | _, _ => []
  end.

(** [col.unique()]: the distinct values in order of first appearance. *)
Fixpoint unique_from (seen : list string) (col : list string) : list string :=
  match col with
  | [] => []
  | x :: col' =>
      if existsb (String.eqb x) seen then unique_from seen col'
      else x :: unique_from (x :: seen) col'
  end.

Definition unique (col : list string) : list string := unique_from [] col.

(** [col.nunique()]; missing cells are not counted. *)
Definition nunique (col : list (option string)) : nat :=
  length (unique (omap (fun cell => cell) col)).

(** [col.min()] and [col.max()] of a column with a first cell. *)
Definition col_min (y : Z) (ys : list Z) : Z := fold_left Z.min ys y.
Definition col_max (y : Z) (ys : list Z) : Z := fold_left Z.max ys y.

End Pd.

(** Python's [sorted] on a list of [str]: code-point order. *)
Fixpoint insert_sorted (x : string) (l : list string) : list string :=
  match l with
  | [] => [x]
  | y :: l' => if String.leb x y then x :: l else y :: insert_sorted x l'
  end.

Definition sorted (l : list string) : list string :=
  fold_right insert_sorted [] l.

(** ** The page as a program *)

(** Values shown by [st.metric]. *)
Inductive shown :=
| Count (n : nat)
| Range (lo hi : Z).     (* f"{lo}-{hi}" *)

(** The Streamlit calls that put something on the page; layout calls
    and the pictographs of the labels are left out. *)
Inductive st_call :=
| st_title (text : string)
| st_markdown (text : string)
| st_header (text : string)
| st_error (text : string)
| st_warning (text : string)
| st_info (text : string)
| st_success (found : nat)
| st_metric (label : string) (value : shown)
| st_dataframe (rows : DataFrame)
| st_download_button (rows : DataFrame)
| st_caption (total : nat).

(** What the widgets return on this run of the script: the text boxes,
    the slider and the multiselect ([None] while untouched, when they
    return their default), and the button. *)
Record widgets := {
  w_artist_name : string;
  w_track_name : string;
  w_year_range : option (Z * Z);
  w_selected_genres : option (list string);
  w_search : bool
}.

(** The store of DataFrame objects, a reference being the position of
    the object, and the page written so far. *)
Definition loc := nat.

Record state := State {
  heap : list DataFrame;
  page : list st_call
}.

Definition M (A : Type) : Type := state -> result A * state.

Definition ret {A} (a : A) : M A := fun σ => (Ok a, σ).

Definition bind {A B} (m : M A) (k : A -> M B) : M B :=
  fun σ =>
    match m σ with
    | (Ok a, σ') => k a σ'
    | (Raise e, σ') => (Raise e, σ')
    end.

Definition lift {A} (r : result A) : M A := fun σ => (r, σ).

#[global] Instance M_ret : MRet M := @ret.
#[global] Instance M_bind : MBind M := fun A B k m => bind m k.

(** A new object: pandas returns a fresh frame. *)
Definition alloc (d : DataFrame) : M loc :=
  fun σ => (Ok (length (heap σ)), State (heap σ ++ [d]) (page σ)).

Definition deref (l : loc) : M DataFrame :=
  fun σ =>
    match heap σ !! l with
    | Some d => (Ok d, σ)
    | None => (Raise Unbound, σ)
    end.

Definition emit (c : st_call) : M unit :=
  fun σ => (Ok tt, State (heap σ) (page σ ++ [c])).

(** [df.copy()] and [df[mask]] give new objects. *)
Definition df_copy (l : loc) : M loc := d ← deref l; alloc d.

Definition df_getitem (l : loc) (mask : list bool) : M loc :=
  d ← deref l; alloc (Pd.getitem_mask d mask).

(** [df[name]] read through a reference. *)
Definition column {A} (f : Song -> A) (l : loc) : M (list A) :=
  d ← deref l; ret (map f d).

(** The operations of pandas that work in place ([drop] and the like
    with [inplace=True], [df[name] = ...]) put another frame at the
    reference.  [app.py] calls none of them. *)
Definition df_assign (l : loc) (d : DataFrame) : M unit :=
  fun σ =>
    match heap σ !! l with
    | Some _ => (Ok tt, State (<[l := d]> (heap σ)) (page σ))
    | None => (Raise Unbound, σ)
    end.

(** The dtypes of the frame read from the file. *)
Definition dtypes_of (d : DataFrame) : Pd.dtypes :=
  {| Pd.artist_is_text := Pd.is_text (map artist_name d);
     Pd.track_is_text := Pd.is_text (map track_name d) |}.

Definition df_dtypes (l : loc) : M Pd.dtypes :=
  d ← deref l; ret (dtypes_of d).

(** Truthiness of a [str] and of a [list]. *)
Definition truthy (s : string) : bool :=
  match s with EmptyString => false | String _ _ => true end.

Definition nonempty {A} (l : list A) : bool :=
  match l with [] => false | _ :: _ => true end.

Definition not_found_message : string :=
  "File 'updated_spotify_data.csv' not found. Please make sure your data file exists.".

Definition no_data_message : string :=
  "No songs data available. Please check if your CSV file exists and contains data.".

(** [load_songs]; [file] is the table [pd.read_csv] returns when the
    file exists ([Some []] for a file with a header and no row). *)
Definition load_songs (file : option DataFrame) : M loc :=
  match file with
  | Some d => alloc d
  | None => emit (st_error not_found_message);; alloc []
  end.

(** The values of the four filter widgets when the button is pressed:
    the variables [artist_name], [track_name], [year_range] and
    [selected_genres] of [main]. *)
Record Criteria := {
  artist_query : string;
  track_query : string;
  year_range : Z * Z;
  selected_genres : list string
}.

(** The four filters of [main], each a block of lines 82 to 101 that
    rebinds [filtered_songs].  [dt] holds the dtypes of [songs_df],
    which [copy()] and [df[mask]] hand on to [filtered_songs]. *)
Definition artist_filter (dt : Pd.dtypes) (c : Criteria) (filtered_songs : loc)
  : M loc :=
  if truthy (artist_query c) then
    col ← column artist_name filtered_songs;
    mask ← lift (Pd.str_contains (Pd.artist_is_text dt) (artist_query c) col);
    df_getitem filtered_songs mask
  else ret filtered_songs.

Definition track_filter (dt : Pd.dtypes) (c : Criteria) (filtered_songs : loc)
  : M loc :=
  if truthy (track_query c) then
    col ← column track_name filtered_songs;
    mask ← lift (Pd.str_contains (Pd.track_is_text dt) (track_query c) col);
    df_getitem filtered_songs mask
  else ret filtered_songs.

Definition year_filter (c : Criteria) (filtered_songs : loc) : M loc :=
  lo ← column year filtered_songs;
  hi ← column year filtered_songs;
  df_getitem filtered_songs
    (Pd.mask_and (Pd.ge lo (fst (year_range c)))
                 (Pd.le hi (snd (year_range c)))).

Definition genre_filter (c : Criteria) (filtered_songs : loc) : M loc :=
  if nonempty (selected_genres c) then
    col ← column genre filtered_songs;
    df_getitem filtered_songs (Pd.isin col (selected_genres c))
  else ret filtered_songs.

(** The filter of [main], lines 79 to 101. *)
Definition search_songs (songs_df : loc) (c : Criteria) : M loc :=
  dt ← df_dtypes songs_df;
  filtered_songs ← df_copy songs_df;
  filtered_songs ← artist_filter dt c filtered_songs;
  filtered_songs ← track_filter dt c filtered_songs;
  filtered_songs ← year_filter c filtered_songs;
  genre_filter c filtered_songs.

(** The same blocks taken in a given order, to compare orders. *)
Inductive stage := Artist | Track | Year | Genre.

Definition run_stage (st : stage) (dt : Pd.dtypes) : Criteria -> loc -> M loc :=
  match st with
  | Artist => artist_filter dt
  | Track => track_filter dt
  | Year => year_filter
  | Genre => genre_filter
  end.

Fixpoint run_stages (order : list stage) (dt : Pd.dtypes) (c : Criteria)
    (filtered_songs : loc) : M loc :=
  match order with
  | [] => ret filtered_songs
  | st :: order' =>
      filtered_songs ← run_stage st dt c filtered_songs;
      run_stages order' dt c filtered_songs
  end.

Definition search_songs_in (order : list stage) (songs_df : loc) (c : Criteria)
  : M loc :=
  dt ← df_dtypes songs_df;
  filtered_songs ← df_copy songs_df;
  run_stages order dt c filtered_songs.

(** The statistics of a frame with a first row: lines 35 to 43 and 115
    to 121. *)
Definition year_span (first : Song) (rest : DataFrame) : shown :=
  Range (Pd.col_min (year first) (map year rest))
        (Pd.col_max (year first) (map year rest)).

Definition show_results (filtered : DataFrame) : M unit :=
  emit (st_markdown "---");;
  emit (st_header "Search Results");;
  match filtered with
  | [] =>
      emit (st_error
        "No songs found matching your criteria. Try adjusting your filters.")
  | first :: rest =>
      emit (st_success (length filtered));;
      emit (st_metric "Artists in Results"
              (Count (Pd.nunique (map artist_name filtered))));;
      emit (st_metric "Years Covered" (year_span first rest));;
      emit (st_metric "Genres in Results"
              (Count (length (Pd.unique (map genre filtered)))));;
      emit (st_dataframe filtered);;
      emit (st_download_button filtered)
  end.

Definition show_preview (df : DataFrame) : M unit :=
  emit (st_markdown "---");;
  emit (st_header "All Songs Preview");;
  emit (st_info
    "Use the filters above to search for specific songs, then click 'Search Songs'");;
  emit (st_dataframe (take 10 df));;
  if (10 <? length df)%nat then emit (st_caption (length df)) else ret tt.

(** The criteria the widgets give on a frame with a first row: the
    slider runs over the years of the frame and starts at both ends,
    the multiselect offers the genres of the frame and starts with all
    of them. *)
Definition default_year_range (first : Song) (rest : DataFrame) : Z * Z :=
  (Pd.col_min (year first) (map year rest),
   Pd.col_max (year first) (map year rest)).

Definition all_genres (df : DataFrame) : list string :=
  sorted (Pd.unique (map genre df)).

Definition criteria_of (w : widgets) (first : Song) (rest : DataFrame)
  : Criteria :=
  {| artist_query := w_artist_name w;
     track_query := w_track_name w;
     year_range := default (default_year_range first rest) (w_year_range w);
     selected_genres :=
       default (all_genres (first :: rest)) (w_selected_genres w) |}.

(** [main]. *)
Definition main (file : option DataFrame) (w : widgets) : M unit :=
  emit (st_title "Spotify Songs Search");;
  emit (st_markdown "Search and filter through your Spotify songs collection");;
  emit (st_markdown "---");;
  songs_df ← load_songs file;
  df ← deref songs_df;
  match df with
  | [] => emit (st_warning no_data_message)
  | first :: rest =>
      emit (st_metric "Total Songs" (Count (length df)));;
      emit (st_metric "Unique Artists"
              (Count (Pd.nunique (map artist_name df))));;
      emit (st_metric "Years Range" (year_span first rest));;
      emit (st_metric "Genres" (Count (length (Pd.unique (map genre df)))));;
      emit (st_markdown "---");;
      emit (st_header "Search Filters");;
      if w_search w then
        filtered_songs ← search_songs songs_df (criteria_of w first rest);
        filtered ← deref filtered_songs;
        show_results filtered
      else show_preview df
  end.

(** The untouched widgets: what a first visit to the page gives. *)
Definition untouched (search : bool) : widgets :=
  {| w_artist_name := ""; w_track_name := "";
     w_year_range := None; w_selected_genres := None;
     w_search := search |}.

(** ** The filter as a function

    [apply D C] runs the filter of [main] on a store that holds [D] as
    [songs_df] and reads the frame it returns. *)

Definition initial (D : DataFrame) : state := State [D] [].

Definition apply (D : DataFrame) (C : Criteria) : result DataFrame :=
  fst ((filtered_songs ← search_songs 0%nat C; deref filtered_songs) (initial D)).

(** The frame the blocks taken in [order] return on [D], and the frame
    one block returns. *)
Definition apply_in (order : list stage) (D : DataFrame) (C : Criteria)
  : result DataFrame :=
  fst ((filtered_songs ← search_songs_in order 0%nat C; deref filtered_songs)
         (initial D)).

Definition stage_on (st : stage) (D : DataFrame) (C : Criteria)
  : result DataFrame :=
  fst ((dt ← df_dtypes 0%nat;
        filtered_songs ← run_stage st dt C 0%nat;
        deref filtered_songs)
         (initial D)).

Definition source_order : list stage := [Artist; Track; Year; Genre].

(** The default criteria of a dataset: those of the untouched widgets.
    [main] stops before the widgets when the frame is empty. *)
Definition default_criteria (D : DataFrame) : option Criteria :=
  match D with
  | [] => None
  | first :: rest => Some (criteria_of (untouched true) first rest)
  end.

(** ** The words of the specification *)

Module Spec.
Import Chars.

Fixpoint starts_with (p s : list ascii) : bool :=
  match p, s with
  | [], _ => true
  | _ :: _, [] => false
  | x :: p', y :: s' => Ascii.eqb x y && starts_with p' s'
  end.

Fixpoint infix_of (p s : list ascii) : bool :=
  starts_with p s ||
  match s with
  | [] => false
  | _ :: s' => infix_of p s'
  end.

(** [s] contains [q] as a case-insensitive substring:
    [q.lower() in s.lower()]. *)
Definition contains_ci (q s : string) : bool :=
  infix_of (map lower (chars q)) (map lower (chars s)).

(** The same for a cell, a missing cell containing nothing. *)
Definition cell_contains_ci (q : string) (cell : option string) : bool :=
  match cell with
  | Some s => contains_ci q s
  | None => false
  end.

(** The characters that stand for themselves in a pattern: all but
    the special characters of [sre_parse]. *)
Definition special (c : ascii) : bool :=
  existsb (Ascii.eqb c) (chars ".\[{()*+?^$|").

Definition plain (q : string) : bool :=
  forallb (fun c => negb (special c)) (chars q).

End Spec.

(** ** The rows a block keeps

    What a block returns on a frame, as a function of the frame. *)

Definition cell_matches (r : Re.regex) (cell : option string) : bool :=
  match cell with
  | Some s => Re.search r s
  | None => false
  end.

Definition in_years (c : Criteria) (s : Song) : bool :=
  (fst (year_range c) <=? year s) && (year s <=? snd (year_range c)).

Definition in_genres (c : Criteria) (s : Song) : bool :=
  if nonempty (selected_genres c)
  then existsb (String.eqb (genre s)) (selected_genres c)
  else true.

Definition text_block (text : bool) (q : string) (cell : Song -> option string)
    (F : DataFrame) : result DataFrame :=
  if truthy q then
    if text then
      match F with
      | [] => Ok []
      | _ :: _ =>
          match Re.compile q with
          | Ok r => Ok (List.filter (fun s => cell_matches r (cell s)) F)
          | Raise e => Raise e
          end
      end
    else Raise AttributeError
  else Ok F.

Definition block_of (st : stage) (dt : Pd.dtypes) (c : Criteria)
    (F : DataFrame) : result DataFrame :=
  match st with
  | Artist => text_block (Pd.artist_is_text dt) (artist_query c) artist_name F
  | Track => text_block (Pd.track_is_text dt) (track_query c) track_name F
  | Year => Ok (List.filter (in_years c) F)
  | Genre => Ok (List.filter (in_genres c) F)
  end.

Fixpoint blocks_of (order : list stage) (dt : Pd.dtypes) (c : Criteria)
    (F : DataFrame) : result DataFrame :=
  match order with
  | [] => Ok F
  | st :: order' =>
      match block_of st dt c F with
      | Ok F' => blocks_of order' dt c F'
      | Raise e => Raise e
      end
  end.

(** The test a row passes to be kept by a text block that returns: a
    pattern that does not compile keeps nothing. *)
Definition text_keeps (q : string) (cell : option string) : bool :=
  if truthy q then
    match Re.compile q with
    | Ok r => cell_matches r cell
    | Raise _ => false
    end
  else true.

Definition stage_keeps (st : stage) (c : Criteria) (s : Song) : bool :=
  match st with
  | Artist => text_keeps (artist_query c) (artist_name s)
  | Track => text_keeps (track_query c) (track_name s)
  | Year => in_years c s
  | Genre => in_genres c s
  end.

Definition order_keeps (order : list stage) (c : Criteria) (s : Song) : bool :=
  forallb (fun st => stage_keeps st c s) order.

(** A query that is empty or compiles. *)
Definition compiles (q : string) : Prop :=
  truthy q = true -> exists r, Re.compile q = Ok r.

(** The two text columns, with the block and the query of each. *)
Inductive text_column := ArtistName | TrackName.

Definition stage_of (col : text_column) : stage :=
  match col with ArtistName => Artist | TrackName => Track end.

Definition query_of (col : text_column) (c : Criteria) : string :=
  match col with ArtistName => artist_query c | TrackName => track_query c end.

Definition cell_of (col : text_column) (s : Song) : option string :=
  match col with ArtistName => artist_name s | TrackName => track_name s end.

(** ** The dataset of the scenarios *)

Module Sample.
Local Open Scope string_scope.

Definition abc : Song :=
  {| id := 1; artist_name := Some "Abc"; track_name := Some "X";
     track_id := Some "t1"; year := 2000; genre := "Pop" |}.

Definition xyz : Song :=
  {| id := 2; artist_name := Some "Xyz"; track_name := Some "Y";
     track_id := Some "t2"; year := 2010; genre := "Rock" |}.

Definition songs : DataFrame := [abc; xyz].

(** The criteria of the first scenario. *)
Definition ab_query : Criteria :=
  {| artist_query := "ab"; track_query := "";
     year_range := (1990, 2020); selected_genres := ["Pop"; "Rock"] |}.

(** The same with the genre selection cleared. *)
Definition no_genres : Criteria :=
  {| artist_query := "ab"; track_query := "";
     year_range := (1990, 2020); selected_genres := [] |}.

(** An artist whose name holds a parenthesis, and queries with
    special characters. *)
Definition paren : Song :=
  {| id := 3; artist_name := Some "A(b"; track_name := Some "a(b";
     track_id := Some "t3"; year := 2005; genre := "Pop" |}.

Definition text_queries (artist track : string) : Criteria :=
  {| artist_query := artist; track_query := track;
     year_range := (1990, 2020); selected_genres := ["Pop"; "Rock"] |}.

End Sample.

(** ** Reading the page

    What a run of [main] puts on the page, by kind of call. *)

Definition frames_shown (p : list st_call) : list DataFrame :=
  omap (fun c => match c with st_dataframe rows => Some rows | _ => None end) p.

Definition downloads (p : list st_call) : list DataFrame :=
  omap (fun c => match c with st_download_button rows => Some rows | _ => None end) p.

Definition metrics (p : list st_call) : list (string * shown) :=
  omap (fun c => match c with st_metric l v => Some (l, v) | _ => None end) p.

Definition errors (p : list st_call) : list string :=
  omap (fun c => match c with st_error t => Some t | _ => None end) p.

Definition warnings (p : list st_call) : list string :=
  omap (fun c => match c with st_warning t => Some t | _ => None end) p.

Definition successes (p : list st_call) : list nat :=
  omap (fun c => match c with st_success n => Some n | _ => None end) p.

Definition captions (p : list st_call) : list nat :=
  omap (fun c => match c with st_caption n => Some n | _ => None end) p.

(** What a program writes on an empty page. *)
Definition written {A} (m : M A) : list st_call :=
  page (snd (m (State [] []))).

(** The calls of [main] before it looks at the frame, and those between
    the check for an empty frame and the button. *)
Definition banner : list st_call :=
  [st_title "Spotify Songs Search";
   st_markdown "Search and filter through your Spotify songs collection";
   st_markdown "---"].

Definition summary (first : Song) (rest : DataFrame) : list st_call :=
  [st_metric "Total Songs" (Count (length (first :: rest)));
   st_metric "Unique Artists"
     (Count (Pd.nunique (map artist_name (first :: rest))));
   st_metric "Years Range" (year_span first rest);
   st_metric "Genres"
     (Count (length (Pd.unique (map genre (first :: rest)))));
   st_markdown "---";
   st_header "Search Filters"].

Definition no_match_message : string :=
  "No songs found matching your criteria. Try adjusting your filters.".

(** ** Escaping a query

    The query with a backslash put before each special character. *)
Fixpoint escape_chars (s : list ascii) : list ascii :=
  match s with
  | [] => []
  | c :: s' =>
      if Spec.special c then "\"%char :: c :: escape_chars s'
      else c :: escape_chars s'
  end.

Definition escape (q : string) : string :=
  string_of_list_ascii (escape_chars (Chars.chars q)).

(** Queries that [re.compile] rejects: one that starts with a repeat,
    one with a closing parenthesis after plain text, one with an opening
    parenthesis between plain texts, and plain text that ends with a
    backslash. *)
Inductive rejected : string -> Prop :=
| leading_repeat c q :
    In c ["*"; "+"; "?"]%char -> rejected (String c q)
| closing_parenthesis q1 q2 :
    Spec.plain q1 = true -> rejected (q1 ++ ")" ++ q2)%string
| opening_parenthesis q1 q2 :
    Spec.plain q1 = true -> Spec.plain q2 = true ->
    rejected (q1 ++ "(" ++ q2)%string
| trailing_backslash q1 :
    Spec.plain q1 = true -> rejected (q1 ++ "\")%string.

(** A list of [str] in ascending order: each item [<=] the next. *)
Fixpoint ascending (l : list string) : bool :=
  match l with
  | x :: (y :: _) as l' => String.leb x y && ascending l'
  | _ => true
  end.

(** ** Blocks whose queries compile

    When each query that is not empty compiles, a block raises whatever
    the frame, or keeps the rows that pass a test of the row alone. *)

Definition text_test (text : bool) (q : string) (cell : Song -> option string)
  : result (Song -> bool) :=
  if truthy q then
    if text then
      match Re.compile q with
      | Ok r => Ok (fun s => cell_matches r (cell s))
      | Raise e => Raise e
      end
    else Raise AttributeError
  else Ok (fun _ => true).

Definition test_of (st : stage) (dt : Pd.dtypes) (c : Criteria)
  : result (Song -> bool) :=
  match st with
  | Artist => text_test (Pd.artist_is_text dt) (artist_query c) artist_name
  | Track => text_test (Pd.track_is_text dt) (track_query c) track_name
  | Year => Ok (in_years c)
  | Genre => Ok (in_genres c)
  end.

Fixpoint tests_of (order : list stage) (dt : Pd.dtypes) (c : Criteria)
    (F : DataFrame) : result DataFrame :=
  match order with
  | [] => Ok F
  | st :: order' =>
      match test_of st dt c with
      | Ok p => tests_of order' dt c (List.filter p F)
      | Raise e => Raise e
      end
  end.

(** ** Runs of blocks on the store *)

(** What a run of a block does to the store, by what the block returns
    on the frame: on a raise nothing; on a return the frame returned is
    in the store, at the reference given or at a new one, and the
    frames that were in the store are kept. *)
Definition block_run (prog : M loc) (out : result DataFrame) (σ : state)
    (l : loc) : Prop :=
  match out with
  | Ok F' =>
      exists l' σ',
        prog σ = (Ok l', σ') /\
        heap σ' !! l' = Some F' /\
        heap σ `prefix_of` heap σ' /\ page σ' = page σ /\
        (l' = l \/ (length (heap σ) <= l')%nat)
  | Raise e => prog σ = (Raise e, σ)
  end.

(** The same for blocks in sequence; on a raise the blocks before may
    have added frames. *)
Definition blocks_run (prog : M loc) (out : result DataFrame) (σ : state)
    (l : loc) : Prop :=
  match out with
  | Ok R =>
      exists l' σ',
        prog σ = (Ok l', σ') /\
        heap σ' !! l' = Some R /\
        heap σ `prefix_of` heap σ' /\ page σ' = page σ /\
        (l' = l \/ (length (heap σ) <= l')%nat)
  | Raise e =>
      exists σ',
        prog σ = (Raise e, σ') /\
        heap σ `prefix_of` heap σ' /\ page σ' = page σ
  end.

(** ** A catalogue on which each block drops a row *)

Module Catalog.
Local Open Scope string_scope.

Definition abba : Song :=
  {| id := 1; artist_name := Some "Abba"; track_name := Some "Solo";
     track_id := Some "c1"; year := 2000; genre := "Pop" |}.

Definition muse : Song :=
  {| id := 2; artist_name := Some "Muse"; track_name := Some "Mono";
     track_id := Some "c2"; year := 2000; genre := "Pop" |}.

Definition alpha : Song :=
  {| id := 3; artist_name := Some "Alpha"; track_name := Some "Sky";
     track_id := Some "c3"; year := 2000; genre := "Pop" |}.

Definition adam : Song :=
  {| id := 4; artist_name := Some "Adam"; track_name := Some "Moon";
     track_id := Some "c4"; year := 1980; genre := "Pop" |}.

Definition anna : Song :=
  {| id := 5; artist_name := Some "Anna"; track_name := Some "Loop";
     track_id := Some "c5"; year := 2005; genre := "Jazz" |}.

Definition cara : Song :=
  {| id := 6; artist_name := Some "Cara"; track_name := Some "Gold";
     track_id := Some "c6"; year := 2010; genre := "Rock" |}.

Definition songs : DataFrame := [abba; muse; alpha; adam; anna; cara].

(** Criteria under which the artist block drops [muse], the track
    block [alpha], the year block [adam] and the genre block [anna]. *)
Definition all_four : Criteria :=
  {| artist_query := "a"; track_query := "o";
     year_range := (1995, 2015); selected_genres := ["Pop"; "Rock"] |}.

(** The same with a narrower year range and one genre. *)
Definition narrow : Criteria :=
  {| artist_query := "a"; track_query := "o";
     year_range := (1995, 2005); selected_genres := ["Pop"] |}.



(** A row without artist_name, and an invalid artist query with a year
    range that no row of [Sample.songs] is in. *)
Definition unnamed : Song :=
  {| id := 7; artist_name := None; track_name := Some "Intro";
     track_id := Some "c7"; year := 2001; genre := "Pop" |}.

Definition paren_no_years : Criteria :=
  {| artist_query := "("; track_query := "";
     year_range := (1, 2); selected_genres := ["Pop"; "Rock"] |}.

End Catalog.

(** ** The slider

    [st.slider] of [main] returns when its least value is below its
    greatest and both are safe integers of JavaScript, and raises
    otherwise. *)
Definition slider_accepts (range : Z * Z) : bool :=
  (fst range <? snd range)
  && (- (2 ^ 53 - 1) <=? fst range) && (snd range <=? 2 ^ 53 - 1).

(** * Proofs *)

(** ** Running the monad *)

Section Running.
Context {A B : Type}.

Lemma bind_ok (m : M A) (k : A -> M B) σ a σ' :
  m σ = (Ok a, σ') -> (m ≫= k) σ = k a σ'.
Proof. intros H. unfold mbind, M_bind, bind. by rewrite H. Qed.

Lemma bind_raise (m : M A) (k : A -> M B) σ e σ' :
  m σ = (Raise e, σ') -> (m ≫= k) σ = (Raise e, σ').
Proof. intros H. unfold mbind, M_bind, bind. by rewrite H. Qed.
End Running.

Lemma deref_ok σ l d : heap σ !! l = Some d -> deref l σ = (Ok d, σ).
Proof. intros H. unfold deref. by rewrite H. Qed.

Lemma column_ok {A} (f : Song -> A) σ l d :
  heap σ !! l = Some d -> column f l σ = (Ok (map f d), σ).
Proof. intros H. unfold column. by rewrite (bind_ok _ _ _ _ _ (deref_ok _ _ _ H)). Qed.

Lemma df_getitem_ok σ l d mask :
  heap σ !! l = Some d ->
  df_getitem l mask σ =
    (Ok (length (heap σ)), State (heap σ ++ [Pd.getitem_mask d mask]) (page σ)).
Proof. intros H. unfold df_getitem. by rewrite (bind_ok _ _ _ _ _ (deref_ok _ _ _ H)). Qed.

Lemma df_copy_ok σ l d :
  heap σ !! l = Some d ->
  df_copy l σ = (Ok (length (heap σ)), State (heap σ ++ [d]) (page σ)).
Proof. intros H. unfold df_copy. by rewrite (bind_ok _ _ _ _ _ (deref_ok _ _ _ H)). Qed.

Lemma df_dtypes_ok σ l d :
  heap σ !! l = Some d -> df_dtypes l σ = (Ok (dtypes_of d), σ).
Proof. intros H. unfold df_dtypes. by rewrite (bind_ok _ _ _ _ _ (deref_ok _ _ _ H)). Qed.

(** ** Masks *)

Lemma getitem_mask_map (p : Song -> bool) (d : DataFrame) :
  Pd.getitem_mask d (map p d) = List.filter p d.
Proof. induction d as [|s d IH]; simpl; [done|]. by rewrite IH. Qed.

Lemma mask_and_map {A} (f g : A -> bool) (l : list A) :
  Pd.mask_and (map f l) (map g l) = map (fun x => f x && g x) l.
Proof. induction l as [|x l IH]; simpl; [done|]. by rewrite IH. Qed.

Lemma filter_and {A} (p q : A -> bool) (l : list A) :
  List.filter q (List.filter p l) = List.filter (fun x => p x && q x) l.
Proof.
  induction l as [|x l IH]; simpl; [done|].
  destruct (p x); simpl; [|done]. destruct (q x); by rewrite IH.
Qed.

Lemma filter_all {A} (l : list A) : List.filter (fun _ => true) l = l.
Proof. by apply forallb_filter_id, forallb_forall. Qed.

Lemma filter_sublist {A} (p : A -> bool) (l : list A) :
  List.filter p l `sublist_of` l.
Proof.
  induction l as [|x l IH]; simpl; [done|].
  destruct (p x); by constructor.
Qed.

Lemma filter_swap {A} (p q : A -> bool) (l : list A) :
  List.filter q (List.filter p l) = List.filter p (List.filter q l).
Proof. rewrite !filter_and. apply List.filter_ext. intros x. apply andb_comm. Qed.

Lemma filter_fixed {A} (p : A -> bool) (l : list A) :
  (forall x, In x l -> p x = true) -> List.filter p l = l.
Proof. intros H. by apply forallb_filter_id, forallb_forall. Qed.

(** ** One block *)

Lemma block_run_new σ l F' :
  block_run
    (fun σ0 => (Ok (length (heap σ)), State (heap σ ++ [F']) (page σ)))
    (Ok F') σ l.
Proof.
  eexists _, _. split; [reflexivity|]. simpl.
  split; [by apply list_lookup_middle|]. split; [by apply prefix_app_r|].
  split; [done|]. by right.
Qed.

Lemma text_filter_run text q (cell : Song -> option string) σ l F :
  heap σ !! l = Some F ->
  block_run
    (if truthy q then
       col ← column cell l;
       mask ← lift (Pd.str_contains text q col);
       df_getitem l mask
     else ret l)
    (text_block text q cell F) σ l.
Proof.
  intros Hl. unfold text_block. destruct (truthy q).
  - unfold block_run. rewrite (bind_ok _ _ _ _ _ (column_ok _ _ _ _ Hl)).
    unfold Pd.str_contains, lift. destruct text.
    + destruct F as [|s F].
      * simpl map. erewrite bind_ok by reflexivity.
        rewrite (df_getitem_ok _ _ _ _ Hl). apply block_run_new.
      * cbn [map]. destruct (Re.compile q) as [r|e].
        -- erewrite bind_ok by reflexivity. rewrite (df_getitem_ok _ _ _ _ Hl).
           change (cell s :: map cell F) with (map cell (s :: F)).
           rewrite map_map,
             (getitem_mask_map (fun s => cell_matches r (cell s))).
           apply block_run_new.
        -- by erewrite bind_raise by reflexivity.
    + by erewrite bind_raise by reflexivity.
  - unfold block_run. exists l, σ. split; [done|]. split; [done|]. split; [done|]. split; [done|by left].
Qed.

Lemma run_stage_spec st dt c σ l F :
  heap σ !! l = Some F ->
  block_run (run_stage st dt c l) (block_of st dt c F) σ l.
Proof.
  intros Hl. destruct st; simpl.
  - by apply text_filter_run.
  - by apply text_filter_run.
  - unfold year_filter, block_run.
    rewrite (bind_ok _ _ _ _ _ (column_ok _ _ _ _ Hl)).
    rewrite (bind_ok _ _ _ _ _ (column_ok _ _ _ _ Hl)).
    rewrite (df_getitem_ok _ _ _ _ Hl).
    unfold Pd.ge, Pd.le. rewrite !map_map, mask_and_map.
    rewrite (getitem_mask_map (in_years c)). apply block_run_new.
  - unfold genre_filter, in_genres, block_run.
    destruct (nonempty (selected_genres c)).
    + rewrite (bind_ok _ _ _ _ _ (column_ok _ _ _ _ Hl)).
      rewrite (df_getitem_ok _ _ _ _ Hl).
      unfold Pd.isin. rewrite map_map.
      rewrite (getitem_mask_map
                 (fun s => existsb (String.eqb (genre s)) (selected_genres c))).
      apply block_run_new.
    + rewrite filter_all. exists l, σ.
      split; [done|]. split; [done|]. split; [done|]. split; [done|by left].
Qed.

(** ** The blocks in sequence *)

Lemma run_stages_spec order dt c : forall σ l F,
  heap σ !! l = Some F ->
  blocks_run (run_stages order dt c l) (blocks_of order dt c F) σ l.
Proof.
  induction order as [|st order IH]; intros σ l F Hl; simpl.
  - exists l, σ.
    split; [done|]. split; [done|]. split; [done|]. split; [done|by left].
  - pose proof (run_stage_spec st dt c σ l F Hl) as Hst.
    destruct (block_of st dt c F) as [F'|e]; simpl in Hst.
    + destruct Hst as (l1 & σ1 & Hrun & Hl1 & Hpre & Hpage & Hfresh).
      specialize (IH σ1 l1 _ Hl1).
      pose proof (prefix_length _ _ Hpre) as Hlen.
      destruct (blocks_of order dt c F') as [R|e]; simpl in *;
        rewrite (bind_ok _ _ _ _ _ Hrun).
      * destruct IH as (l2 & σ2 & -> & Hl2 & Hpre2 & Hpage2 & Hfresh2).
        exists l2, σ2. split; [done|]. split; [done|].
        split; [by etrans|]. split; [congruence|].
        destruct Hfresh2 as [->|?]; [done|right; lia].
      * destruct IH as (σ2 & -> & Hpre2 & Hpage2).
        exists σ2. split; [done|]. split; [by etrans|congruence].
    + exists σ. by rewrite (bind_raise _ _ _ _ _ Hst).
Qed.

(** The filter on a store: it returns a frame that was not in the
    store. *)
Lemma search_songs_in_spec order c σ l D :
  heap σ !! l = Some D ->
  match blocks_of order (dtypes_of D) c D with
  | Ok R =>
      exists l' σ',
        search_songs_in order l c σ = (Ok l', σ') /\
        heap σ' !! l' = Some R /\
        heap σ `prefix_of` heap σ' /\ page σ' = page σ /\
        (length (heap σ) <= l')%nat
  | Raise e =>
      exists σ',
        search_songs_in order l c σ = (Raise e, σ') /\
        heap σ `prefix_of` heap σ' /\ page σ' = page σ
  end.
Proof.
  intros Hl. unfold search_songs_in.
  rewrite (bind_ok _ _ _ _ _ (df_dtypes_ok _ _ _ Hl)).
  rewrite (bind_ok _ _ _ _ _ (df_copy_ok _ _ _ Hl)).
  set (σ0 := State (heap σ ++ [D]) (page σ)).
  assert (H0 : heap σ0 !! length (heap σ) = Some D) by by apply list_lookup_middle.
  assert (Hpre : heap σ `prefix_of` heap σ0) by by apply prefix_app_r.
  pose proof (run_stages_spec order (dtypes_of D) c σ0 _ D H0) as H.
  destruct (blocks_of order (dtypes_of D) c D) as [R|e]; simpl in H.
  - destruct H as (l' & σ' & -> & ? & ? & ? & Hfresh).
    exists l', σ'. split; [done|]. split; [done|].
    split; [by etrans|]. split; [done|].
    unfold σ0 in Hfresh. simpl in Hfresh. rewrite length_app in Hfresh.
    simpl in Hfresh. lia.
  - destruct H as (σ' & -> & ? & ?).
    exists σ'. split; [done|]. split; [by etrans|done].
Qed.

(** [search_songs] is its four blocks in the order of the source. *)
Lemma search_songs_source_order l c σ :
  search_songs l c σ = search_songs_in source_order l c σ.
Proof.
  unfold search_songs, search_songs_in, source_order, run_stages, run_stage.
  unfold mbind, M_bind, bind, mret, M_ret, ret.
  destruct (df_dtypes l σ) as [[dt|e] σd]; [|done].
  destruct (df_copy l σd) as [[l0|e] σ0]; [|done].
  destruct (artist_filter dt c l0 σ0) as [[l1|e] σ1]; [|done].
  destruct (track_filter dt c l1 σ1) as [[l2|e] σ2]; [|done].
  destruct (year_filter c l2 σ2) as [[l3|e] σ3]; [|done].
  by destruct (genre_filter c l3 σ3) as [[l4|e] σ4].
Qed.

(** ** The filter as a function of the dataset *)

Lemma apply_in_blocks order D C :
  apply_in order D C = blocks_of order (dtypes_of D) C D.
Proof.
  unfold apply_in.
  pose proof (search_songs_in_spec order C (initial D) 0%nat D eq_refl) as H.
  destruct (blocks_of order (dtypes_of D) C D) as [R|e].
  - destruct H as (l' & σ' & Hrun & Hl' & _).
    by rewrite (bind_ok _ _ _ _ _ Hrun), (deref_ok _ _ _ Hl').
  - destruct H as (σ' & Hrun & _). by rewrite (bind_raise _ _ _ _ _ Hrun).
Qed.

Lemma apply_source_order D C : apply D C = apply_in source_order D C.
Proof.
  unfold apply, apply_in, mbind, M_bind, bind.
  by rewrite search_songs_source_order.
Qed.

Lemma apply_blocks D C : apply D C = blocks_of source_order (dtypes_of D) C D.
Proof. by rewrite apply_source_order, apply_in_blocks. Qed.

Lemma stage_on_block st D C : stage_on st D C = block_of st (dtypes_of D) C D.
Proof.
  unfold stage_on.
  rewrite (bind_ok _ _ _ _ _ (df_dtypes_ok (initial D) 0%nat D eq_refl)).
  pose proof (run_stage_spec st (dtypes_of D) C (initial D) 0%nat D eq_refl) as H.
  destruct (block_of st (dtypes_of D) C D) as [F'|e]; simpl in H.
  - destruct H as (l' & σ' & Hrun & Hl' & _).
    by rewrite (bind_ok _ _ _ _ _ Hrun), (deref_ok _ _ _ Hl').
  - by rewrite (bind_raise _ _ _ _ _ H).
Qed.

(** A block that returns keeps the rows that pass its test. *)
Lemma text_block_ok text q cell F F' :
  text_block text q cell F = Ok F' ->
  F' = List.filter (fun s => text_keeps q (cell s)) F.
Proof.
  unfold text_block, text_keeps. destruct (truthy q).
  - destruct text; [|done]. destruct F as [|s F]; [by intros [= <-]|].
    destruct (Re.compile q); [|done]. by intros [= <-].
  - intros [= <-]. by rewrite filter_all.
Qed.

Lemma block_ok st dt c F F' :
  block_of st dt c F = Ok F' -> F' = List.filter (stage_keeps st c) F.
Proof.
  destruct st; simpl; [apply text_block_ok|apply text_block_ok| |];
    by intros [= <-].
Qed.

Lemma blocks_ok order dt c : forall F R,
  blocks_of order dt c F = Ok R -> R = List.filter (order_keeps order c) F.
Proof.
  induction order as [|st order IH]; intros F R; simpl.
  - intros [= <-]. symmetry. apply filter_all.
  - destruct (block_of st dt c F) as [F'|] eqn:E; [|done]. intros H.
    rewrite (IH _ _ H), (block_ok _ _ _ _ _ E), filter_and. done.
Qed.

Lemma blocks_source_order dt c D :
  blocks_of source_order dt c D =
    match text_block (Pd.artist_is_text dt) (artist_query c) artist_name D with
    | Ok F1 =>
        match text_block (Pd.track_is_text dt) (track_query c) track_name F1 with
        | Ok F2 => Ok (List.filter (in_genres c) (List.filter (in_years c) F2))
        | Raise e => Raise e
        end
    | Raise e => Raise e
    end.
Proof.
  unfold source_order. simpl.
  destruct (text_block _ (artist_query c) _ D) as [F1|]; [|done].
  by destruct (text_block _ (track_query c) _ F1).
Qed.

Lemma apply_filter D C R :
  apply D C = Ok R -> R = List.filter (order_keeps source_order C) D.
Proof. rewrite apply_blocks. apply blocks_ok. Qed.

Lemma in_years_iff C s :
  in_years C s = true <-> fst (year_range C) <= year s <= snd (year_range C).
Proof. unfold in_years. rewrite andb_true_iff, !Z.leb_le. tauto. Qed.

Lemma apply_rows D C R s :
  apply D C = Ok R -> In s R ->
  In s D /\ fst (year_range C) <= year s <= snd (year_range C) /\
  in_genres C s = true.
Proof.
  intros HR Hs. rewrite (apply_filter _ _ _ HR) in Hs.
  apply List.filter_In in Hs as [Hs Hk]. unfold order_keeps, source_order in Hk.
  simpl in Hk. rewrite !andb_true_iff in Hk.
  destruct Hk as (_ & _ & Hy & Hg & _).
  split; [done|]. split; [by apply in_years_iff|done].
Qed.

(** ** The matcher against what a pattern matches *)

Section Matcher.
Import Chars Re.

Lemma nullable_matches r : nullable r = true <-> matches r [].
Proof.
  split.
  - induction r; simpl; intros H; try done.
    + constructor.
    + apply andb_prop in H as [H1 H2].
      change (@nil ascii) with (@nil ascii ++ []). constructor; auto.
    + apply orb_prop in H as [H|H]; [apply m_alt_l|apply m_alt_r]; auto.
    + constructor.
  - intros H. remember [] as s eqn:Hs.
    induction H; simpl; try done.
    + apply app_eq_nil in Hs as [-> ->]. by rewrite IHmatches1, IHmatches2.
    + by rewrite IHmatches.
    + rewrite IHmatches by done. apply orb_true_r.
Qed.

(** A non-empty match of a repeat starts with a non-empty match of its
    item. *)
Lemma matches_star_cons r c s :
  matches (Star r) (c :: s) ->
  exists s1 s2, s = s1 ++ s2 /\ matches r (c :: s1) /\ matches (Star r) s2.
Proof.
  intros H. remember (Star r) as r' eqn:Hr. remember (c :: s) as s' eqn:Hs.
  revert s Hs.
  induction H as [| | | | | | |r0 s1 s2 H1 _ H2 IH2]; intros t Ht; try done.
  injection Hr as ->. destruct s1 as [|c1 s1].
  - by apply IH2.
  - injection Ht as -> <-. by exists s1, s2.
Qed.

Lemma matches_cat_inv r1 r2 s :
  matches (Cat r1 r2) s ->
  exists s1 s2, s = s1 ++ s2 /\ matches r1 s1 /\ matches r2 s2.
Proof. inversion 1; subst; eauto. Qed.

Lemma deriv_matches c r : forall s, matches (deriv c r) s <-> matches r (c :: s).
Proof.
  induction r as [| |a| |r1 IH1 r2 IH2|r1 IH1 r2 IH2|r IH]; intros s; simpl.
  - split; inversion 1.
  - split; inversion 1.
  - destruct (ci_eqb a c) eqn:E.
    + split; inversion 1; subst; [by constructor|constructor].
    + split; inversion 1; subst; congruence.
  - destruct (Ascii.eqb c newline) eqn:E.
    + split; inversion 1; subst; congruence.
    + split; inversion 1; subst; [by constructor|constructor].
  - assert (Hcat : matches (Cat (deriv c r1) r2) s ->
                   matches (Cat r1 r2) (c :: s)).
    { inversion 1; subst. change (matches (Cat r1 r2) ((c :: s1) ++ s2)).
      constructor; [by apply IH1|done]. }
    assert (Hinv : matches (Cat r1 r2) (c :: s) ->
                   (matches (Cat (deriv c r1) r2) s) \/
                   (nullable r1 = true /\ matches (deriv c r2) s)).
    { intros H. apply matches_cat_inv in H as (s1 & s2 & Heq & H1 & H2).
      destruct s1 as [|c1 s1]; simpl in Heq.
      - right. subst. split; [by apply nullable_matches|by apply IH2].
      - injection Heq as <- ->. left. constructor; [by apply IH1|done]. }
    destruct (nullable r1) eqn:E.
    + split.
      * inversion 1; subst; [by apply Hcat|].
        change (matches (Cat r1 r2) ([] ++ c :: s)).
        constructor; [by apply nullable_matches|by apply IH2].
      * intros H. destruct (Hinv H) as [H'|[_ H']];
          [by apply m_alt_l|by apply m_alt_r].
    + split; [apply Hcat|]. intros H. by destruct (Hinv H) as [H'|[? _]].
  - split.
    + inversion 1; subst; [apply m_alt_l, IH1|apply m_alt_r, IH2]; done.
    + inversion 1; subst; [apply m_alt_l, IH1|apply m_alt_r, IH2]; done.
  - split.
    + inversion 1; subst. change (matches (Star r) ((c :: s1) ++ s2)).
      constructor; [by apply IH|done].
    + intros H. apply matches_star_cons in H as (s1 & s2 & -> & H1 & H2).
      constructor; [by apply IH|done].
Qed.

(** [match_prefix] finds a match at the start of the string exactly
    when the pattern matches some prefix of it. *)
Lemma match_prefix_matches : forall s r,
  match_prefix s r = true <-> exists p t, s = p ++ t /\ matches r p.
Proof.
  induction s as [|c s IH]; intros r; simpl.
  - rewrite orb_false_r, nullable_matches. split.
    + intros H. by exists [], [].
    + intros (p & t & Hs & H). symmetry in Hs.
      by apply app_eq_nil in Hs as [-> _].
  - rewrite orb_true_iff, nullable_matches, IH. split.
    + intros [H|(p & t & -> & H)].
      * by exists [], (c :: s).
      * exists (c :: p), t. split; [done|by apply deriv_matches].
    + intros (p & t & Hs & H). destruct p as [|c' p]; [by left|].
      injection Hs as <- ->. right. exists p, t. split; [done|by apply deriv_matches].
Qed.

(** [search_chars] finds a match exactly when the pattern matches some
    substring. *)
Lemma search_chars_matches r : forall s,
  search_chars r s = true <->
  exists a p b, s = a ++ p ++ b /\ matches r p.
Proof.
  induction s as [|c s IH]; cbn [search_chars];
    rewrite orb_true_iff, match_prefix_matches.
  - split.
    + intros [(p & t & Hs & H)|]; [|done]. by exists [], p, t.
    + intros (a & p & b & Hs & H). left. symmetry in Hs.
      apply app_eq_nil in Hs as [-> Hs]. apply app_eq_nil in Hs as [-> ->].
      by exists [], [].
  - rewrite IH. split.
    + intros [(p & t & Hs & H)|(a & p & b & -> & H)].
      * by exists [], p, t.
      * by exists (c :: a), p, b.
    + intros (a & p & b & Hs & H). destruct a as [|c' a].
      * left. by exists p, b.
      * injection Hs as <- ->. right. by exists a, p, b.
Qed.

End Matcher.

(** ** Patterns without special characters *)

Section Plain.
Import Chars Re Spec.

Lemma branch_rev (its : list regex) :
  branch (rev its) = fold_right Cat Eps its.
Proof. unfold branch. by rewrite <- fold_left_rev_right, rev_involutive. Qed.

Lemma parse_plain : forall s a its b,
  forallb (fun c => negb (special c)) s = true ->
  parse s [] (Frame a its b) =
    Ok (close_frame (Frame a (rev (map Lit s) ++ its) false)).
Proof.
  induction s as [|c s IH]; intros a its b Hs; [done|].
  simpl in Hs. apply andb_prop in Hs as [Hc Hs].
  apply negb_true_iff in Hc. unfold special in Hc. simpl in Hc.
  repeat (apply orb_false_elim in Hc as [? Hc]).
  simpl parse.
  repeat match goal with H : Ascii.eqb c _ = false |- _ => rewrite H; clear H end.
  simpl. unfold push_item. simpl.
  rewrite IH by auto. by rewrite <- app_assoc.
Qed.

Lemma compile_plain q :
  plain q = true ->
  compile q = Ok (fold_right Cat Eps (map Lit (chars q))).
Proof.
  intros H. unfold compile, empty_frame. rewrite parse_plain by auto.
  unfold close_frame. simpl. by rewrite app_nil_r, branch_rev.
Qed.

Lemma match_prefix_Alt : forall s r1 r2,
  match_prefix s (Alt r1 r2) = match_prefix s r1 || match_prefix s r2.
Proof.
  induction s as [|c s IH]; intros r1 r2; simpl.
  - by rewrite !orb_false_r.
  - rewrite IH.
    destruct (nullable r1), (nullable r2); simpl; try done.
    by rewrite orb_true_r.
Qed.

Lemma match_prefix_Cat_Void : forall s r, match_prefix s (Cat Void r) = false.
Proof. induction s as [|c s IH]; intros r; simpl; [done|apply IH]. Qed.

Lemma match_prefix_Cat_Eps : forall s r,
  match_prefix s (Cat Eps r) = match_prefix s r.
Proof.
  destruct s as [|c s]; intros r; simpl; [by rewrite orb_false_r|].
  by rewrite match_prefix_Alt, match_prefix_Cat_Void.
Qed.

(** A sequence of literals matches a prefix letter by letter. *)
Lemma match_prefix_literals : forall q s,
  match_prefix s (fold_right Cat Eps (map Lit q)) =
    starts_with (map lower q) (map lower s).
Proof.
  induction q as [|a q IH]; intros s.
  - by destruct s.
  - destruct s as [|c s]; [done|].
    simpl. unfold ci_eqb. destruct (Ascii.eqb (lower a) (lower c)); simpl.
    + by rewrite match_prefix_Cat_Eps, IH.
    + apply match_prefix_Cat_Void.
Qed.

Lemma search_literals q : forall s,
  search_chars (fold_right Cat Eps (map Lit q)) s =
    infix_of (map lower q) (map lower s).
Proof.
  induction s as [|c s IH]; cbn [search_chars infix_of].
  - by rewrite match_prefix_literals.
  - by rewrite match_prefix_literals, IH.
Qed.

(** For a pattern without special characters, [str.contains] is the
    case-insensitive substring test. *)
(** For a pattern without special characters, a text block on a column
    of text is the case-insensitive substring test. *)
Lemma text_block_plain q cell F :
  truthy q = true -> plain q = true ->
  text_block true q cell F =
    Ok (List.filter (fun s => cell_contains_ci q (cell s)) F).
Proof.
  intros Hq Hp. unfold text_block. rewrite Hq.
  destruct F as [|s F]; [done|]. rewrite compile_plain by done. f_equal.
  apply List.filter_ext. intros s'. destruct (cell s') as [t|]; [|done].
  simpl. unfold search, contains_ci. apply search_literals.
Qed.

End Plain.

(** ** Bounds and membership for the default criteria *)

Lemma col_min_le : forall ys y,
  Pd.col_min y ys <= y /\ Forall (fun z => Pd.col_min y ys <= z) ys.
Proof.
  unfold Pd.col_min. induction ys as [|x ys IH]; intros y; simpl.
  - split; [lia|constructor].
  - destruct (IH (Z.min y x)) as [H1 H2]. split; [lia|].
    constructor; [lia|done].
Qed.

Lemma col_max_ge : forall ys y,
  y <= Pd.col_max y ys /\ Forall (fun z => z <= Pd.col_max y ys) ys.
Proof.
  unfold Pd.col_max. induction ys as [|x ys IH]; intros y; simpl.
  - split; [lia|constructor].
  - destruct (IH (Z.max y x)) as [H1 H2]. split; [lia|].
    constructor; [lia|done].
Qed.

Lemma existsb_eqb_In (x : string) (l : list string) :
  existsb (String.eqb x) l = true <-> In x l.
Proof.
  rewrite existsb_exists. split.
  - intros (y & Hy & Heq). apply String.eqb_eq in Heq. by subst.
  - intros H. exists x. split; [done|apply String.eqb_refl].
Qed.

Lemma In_unique_from x : forall col seen,
  In x (Pd.unique_from seen col) <-> In x col /\ ~ In x seen.
Proof.
  induction col as [|y col IH]; intros seen; simpl; [tauto|].
  destruct (existsb (String.eqb y) seen) eqn:E.
  - apply existsb_eqb_In in E. rewrite IH. split.
    + tauto.
    + intros [[->|H] Hn]; tauto.
  - assert (~ In y seen) as Hy.
    { intros H. apply existsb_eqb_In in H. congruence. }
    simpl. rewrite IH. simpl. split.
    + intros [->|[H Hn]]; tauto.
    + intros [[->|H] Hn]; [tauto|].
      destruct (String.eqb_spec y x); [tauto|]. right. tauto.
Qed.

Lemma In_unique x col : In x (Pd.unique col) <-> In x col.
Proof. unfold Pd.unique. rewrite In_unique_from. simpl. tauto. Qed.

Lemma In_insert_sorted x y : forall l,
  In x (insert_sorted y l) <-> x = y \/ In x l.
Proof.
  induction l as [|z l IH]; simpl; [split; intros [|]; auto; done|].
  destruct (String.leb y z); simpl; [split; intros [|[|]]; auto|].
  rewrite IH. split; intros [|[|]]; auto.
Qed.

Lemma In_sorted x : forall l, In x (sorted l) <-> In x l.
Proof.
  induction l as [|y l IH]; simpl; [done|].
  rewrite In_insert_sorted, IH. split; intros [|]; auto.
Qed.



(** ** A text block on its own result *)

Lemma text_block_again text q cell F F' R :
  text_block text q cell F = Ok F' ->
  (forall s, In s R -> In s F') ->
  text_block (Pd.is_text (map cell R)) q cell R = Ok R.
Proof.
  unfold text_block. destruct (truthy q); [|done].
  destruct text; [|done].
  assert (Hnone : F' = [] -> (forall s, In s R -> In s F') ->
            (if Pd.is_text (map cell R)
             then match R with
                  | [] => Ok []
                  | _ :: _ =>
                      match Re.compile q with
                      | Ok r => Ok (List.filter (fun s => cell_matches r (cell s)) R)
                      | Raise e => Raise e
                      end
                  end
             else Raise AttributeError) = Ok R).
  { intros -> HR. destruct R as [|x R]; [done|]. destruct (HR x). by left. }
  destruct F as [|s0 F]; [intros [= <-]; by apply Hnone|].
  destruct (Re.compile q) as [r|]; [|done].
  remember (s0 :: F) as G eqn:EG. intros HF HR. injection HF as <-.
  destruct R as [|x R]; [done|].
  assert (Hx : forall s, In s (x :: R) -> cell_matches r (cell s) = true).
  { intros s Hs. by apply HR, List.filter_In in Hs as [_ Hs]. }
  assert (Htext : Pd.is_text (map cell (x :: R)) = true).
  { specialize (Hx x (or_introl eq_refl)). simpl.
    by destruct (cell x). }
  rewrite Htext. f_equal. by apply filter_fixed.
Qed.

(** ** Blocks whose queries compile *)

Lemma text_block_test text q cell F :
  compiles q ->
  text_block text q cell F =
    match text_test text q cell with
    | Ok p => Ok (List.filter p F)
    | Raise e => Raise e
    end.
Proof.
  unfold compiles, text_block, text_test. intros Hq.
  destruct (truthy q); [|by rewrite filter_all].
  destruct text; [|done]. destruct (Hq eq_refl) as [r ->].
  by destruct F.
Qed.

Lemma blocks_tests order dt c :
  compiles (artist_query c) -> compiles (track_query c) ->
  forall F, blocks_of order dt c F = tests_of order dt c F.
Proof.
  intros Ha Ht. induction order as [|st order IH]; intros F; [done|].
  simpl.
  assert (Hst : block_of st dt c F =
            match test_of st dt c with
            | Ok p => Ok (List.filter p F)
            | Raise e => Raise e
            end).
  { destruct st; simpl; try done; by apply text_block_test. }
  rewrite Hst. destruct (test_of st dt c); [apply IH|done].
Qed.

Lemma tests_of_perm dt c order1 order2 :
  order1 ≡ₚ order2 ->
  forall F R, tests_of order1 dt c F = Ok R <-> tests_of order2 dt c F = Ok R.
Proof.
  induction 1 as [|st o1 o2 _ IH|st1 st2 o|o1 o2 o3 _ IH1 _ IH2]; intros F R.
  - done.
  - simpl. destruct (test_of st dt c); [apply IH|done].
  - simpl. destruct (test_of st1 dt c) as [p|e1], (test_of st2 dt c) as [q|e2];
      try done.
    by rewrite filter_swap.
  - by rewrite IH1.
Qed.

Lemma order_keeps_perm c s order1 order2 :
  order1 ≡ₚ order2 -> order_keeps order1 c s = order_keeps order2 c s.
Proof.
  unfold order_keeps.
  induction 1 as [|st o1 o2 _ IH|st1 st2 o|o1 o2 o3 _ IH1 _ IH2]; simpl.
  - done.
  - by rewrite IH.
  - by rewrite !andb_assoc, (andb_comm (stage_keeps st2 c s)).
  - by rewrite IH1.
Qed.

(** * The claims *)

(** ** Empty genre selection *)

(** C1, as the code has it: when the genre selection is empty the genre
    block is skipped, so the filter returns what the artist, track and
    year blocks leave. *)
Theorem empty_genres_skip_genre_filter D C :
  selected_genres C = [] ->
  apply D C = apply_in [Artist; Track; Year] D C.
Proof.
  intros Hg. rewrite apply_blocks, apply_in_blocks, blocks_source_order. simpl.
  destruct (text_block _ (artist_query C) _ D) as [F1|]; [|done].
  destruct (text_block _ (track_query C) _ F1) as [F2|]; [|done].
  f_equal. apply filter_fixed. intros s _. unfold in_genres. by rewrite Hg.
Qed.

Lemma empty_genres_skip_genre_filter_witness :
  apply Sample.songs Sample.no_genres =
    apply_in [Artist; Track; Year] Sample.songs Sample.no_genres.
Proof. apply (empty_genres_skip_genre_filter Sample.songs Sample.no_genres). reflexivity. Defined.

(** C1 fails as stated: with the genre selection empty the filter of
    the scenario returns the row of "Abc", not the empty sequence. *)
Lemma empty_genres_not_empty :
  selected_genres Sample.no_genres = [] /\
  apply Sample.songs Sample.no_genres = Ok [Sample.abc] /\
  apply Sample.songs Sample.no_genres <> Ok [].
Proof. split; [reflexivity|]. split; [vm_compute; reflexivity|]. vm_compute. discriminate. Qed.

(** ** Subsequence *)

(** C2: the frame the filter returns is a subsequence of the dataset:
    its rows are rows of the dataset, in the order of the dataset. *)
Theorem apply_sublist D C R :
  apply D C = Ok R -> R `sublist_of` D.
Proof. intros H. rewrite (apply_filter _ _ _ H). apply filter_sublist. Qed.

Lemma apply_sublist_witness : [Sample.abc] `sublist_of` Sample.songs.
Proof. apply (apply_sublist Sample.songs Sample.ab_query). vm_compute. reflexivity. Defined.

(** ** Default criteria *)

Lemma col_min_In : forall ys y, In (Pd.col_min y ys) (y :: ys).
Proof.
  unfold Pd.col_min. induction ys as [|x ys IH]; intros y; simpl; [auto|].
  destruct (IH (Z.min y x)) as [H|H]; [|auto].
  rewrite <- H. destruct (Z.min_spec y x) as [[_ ->]|[_ ->]]; auto.
Qed.

Lemma col_max_In : forall ys y, In (Pd.col_max y ys) (y :: ys).
Proof.
  unfold Pd.col_max. induction ys as [|x ys IH]; intros y; simpl; [auto|].
  destruct (IH (Z.max y x)) as [H|H]; [|auto].
  rewrite <- H. destruct (Z.max_spec y x) as [[_ ->]|[_ ->]]; auto.
Qed.

(** Criteria without text whose bounds and genres cover the dataset
    keep every row. *)
Lemma apply_keeps_all D C :
  artist_query C = EmptyString -> track_query C = EmptyString ->
  (forall s, In s D -> fst (year_range C) <= year s <= snd (year_range C)) ->
  (forall s, In s D -> In (genre s) (selected_genres C)) ->
  apply D C = Ok D.
Proof.
  intros Ha Ht Hy Hg. rewrite apply_blocks, blocks_source_order.
  unfold text_block. rewrite Ha, Ht. simpl. f_equal.
  rewrite (filter_fixed (in_years C)) by (intros s Hs; by apply in_years_iff, Hy).
  apply filter_fixed. intros s Hs.
  unfold in_genres. destruct (nonempty (selected_genres C)); [|done].
  by apply existsb_eqb_In, Hg.
Qed.

(** C3: the default criteria (those of the untouched widgets) have no
    text, the least and greatest year of the dataset as bounds and
    every genre of the dataset selected, and with them the filter
    returns the whole dataset. *)
Theorem default_criteria_all D C :
  default_criteria D = Some C ->
  (artist_query C = EmptyString /\ track_query C = EmptyString) /\
  (In (fst (year_range C)) (map year D) /\ In (snd (year_range C)) (map year D) /\
   forall s, In s D -> fst (year_range C) <= year s <= snd (year_range C)) /\
  (forall g, In g (selected_genres C) <-> In g (map genre D)) /\
  apply D C = Ok D.
Proof.
  destruct D as [|first rest]; [done|]. intros [= <-].
  set (D := first :: rest). set (C := criteria_of (untouched true) first rest).
  assert (Hyears : forall s, In s D ->
            fst (year_range C) <= year s <= snd (year_range C)).
  { intros s Hs. unfold C. simpl.
    destruct (col_min_le (map year rest) (year first)) as [Hm1 Hm2].
    destruct (col_max_ge (map year rest) (year first)) as [HM1 HM2].
    rewrite Forall_forall in Hm2, HM2.
    destruct Hs as [<-|Hs]; [done|].
    assert (year s ∈ map year rest) as Hin.
    { apply list_elem_of_In, in_map, Hs. }
    split; [by apply Hm2|by apply HM2]. }
  assert (Hgenres : forall g, In g (selected_genres C) <-> In g (map genre D)).
  { intros g. unfold C. simpl. fold D. unfold all_genres.
    by rewrite In_sorted, In_unique. }
  split; [done|]. split; [|split; [done|]].
  - split; [apply col_min_In|]. split; [apply col_max_In|done].
  - apply apply_keeps_all; try done.
    intros s Hs. by apply Hgenres, in_map.
Qed.

Lemma default_criteria_all_witness :
  apply Sample.songs
    {| artist_query := ""; track_query := ""; year_range := (2000, 2010);
       selected_genres := ["Pop"; "Rock"]%string |} = Ok Sample.songs.
Proof. apply (default_criteria_all Sample.songs). reflexivity. Defined.

(** ** The text blocks *)

Lemma stage_on_text col D C :
  stage_on (stage_of col) D C =
    text_block (Pd.is_text (map (cell_of col) D)) (query_of col C)
      (cell_of col) D.
Proof. rewrite stage_on_block. by destruct col. Qed.

(** C4, as the code has it: for a query that is not empty and has no
    special character of a regular expression, on a dataset whose
    artist_name column was read as text (it has no row, or a cell of
    text), the artist block keeps exactly the rows whose artist_name
    contains the query as a case-insensitive substring; on a dataset
    with rows of which no artist_name is text the block raises
    AttributeError; and whatever the non-empty query, a row the block
    keeps has an artist_name.  The track block does the same with
    track_name. *)
Theorem text_filter_plain_query col D C :
  truthy (query_of col C) = true ->
  (Pd.is_text (map (cell_of col) D) = true ->
   Spec.plain (query_of col C) = true ->
   stage_on (stage_of col) D C =
     Ok (List.filter
           (fun s => Spec.cell_contains_ci (query_of col C) (cell_of col s)) D))
  /\ (Pd.is_text (map (cell_of col) D) = false ->
      stage_on (stage_of col) D C = Raise AttributeError)
  /\ (forall R s, stage_on (stage_of col) D C = Ok R -> In s R ->
                  cell_of col s <> None).
Proof.
  intros Hq. rewrite stage_on_text. split; [|split].
  - intros -> Hp. by apply text_block_plain.
  - intros ->. unfold text_block. by rewrite Hq.
  - intros R s HR Hs. rewrite (text_block_ok _ _ _ _ _ HR) in Hs.
    apply List.filter_In in Hs as [_ Hs]. unfold text_keeps in Hs.
    rewrite Hq in Hs. destruct (Re.compile (query_of col C)); [|done].
    by destruct (cell_of col s).
Qed.

Lemma text_filter_plain_query_witness :
  stage_on Artist Sample.songs Sample.ab_query = Ok [Sample.abc].
Proof.
  apply (text_filter_plain_query ArtistName Sample.songs Sample.ab_query);
    reflexivity.
Defined.

(** C4 fails as stated: the artist block with the query "a.c" keeps the
    row of "Abc", whose artist_name does not contain "a.c". *)
Lemma text_filter_not_substring :
  truthy (artist_query (Sample.text_queries "a.c" "")) = true /\
  stage_on Artist [Sample.abc] (Sample.text_queries "a.c" "") = Ok [Sample.abc] /\
  Spec.cell_contains_ci "a.c" (artist_name Sample.abc) = false /\
  stage_on Artist [Sample.abc] (Sample.text_queries "a.c" "") <>
    Ok (List.filter
          (fun s => Spec.cell_contains_ci "a.c" (artist_name s)) [Sample.abc]).
Proof.
  split; [reflexivity|]. split; [vm_compute; reflexivity|].
  split; [vm_compute; reflexivity|]. vm_compute. discriminate.
Qed.

(** C10: the text blocks read the query as a regular expression.  A
    block whose query is not empty and compiles keeps, on a column read
    as text, exactly the rows whose cell has a substring that the
    pattern matches.  So the artist query "a.c" keeps "Abc" and drops
    "Xyz" and "A(b", and the track query "x|q" keeps "X" and drops "Y",
    though no cell contains the query; and the query "(" makes both
    blocks, and the whole filter, raise [re.error] on every dataset
    that starts with a row whose cells contain a parenthesis. *)
Theorem text_filter_is_regex :
  (forall col D C r,
     truthy (query_of col C) = true ->
     Re.compile (query_of col C) = Ok r ->
     Pd.is_text (map (cell_of col) D) = true ->
     exists keep,
       stage_on (stage_of col) D C = Ok (List.filter keep D) /\
       forall s, keep s = true <->
         exists cell a p b,
           cell_of col s = Some cell /\
           Chars.chars cell = a ++ p ++ b /\ Re.matches r p) /\
  (stage_on Artist [Sample.abc; Sample.xyz; Sample.paren]
     (Sample.text_queries "a.c" "") = Ok [Sample.abc] /\
   Spec.cell_contains_ci "a.c" (artist_name Sample.abc) = false) /\
  (stage_on Track Sample.songs (Sample.text_queries "" "x|q") = Ok [Sample.abc] /\
   Spec.cell_contains_ci "x|q" (track_name Sample.abc) = false) /\
  (forall rest,
     stage_on Artist (Sample.paren :: rest) (Sample.text_queries "(" "") =
       Raise ReError /\
     stage_on Track (Sample.paren :: rest) (Sample.text_queries "" "(") =
       Raise ReError /\
     apply (Sample.paren :: rest) (Sample.text_queries "(" "") = Raise ReError /\
     apply (Sample.paren :: rest) (Sample.text_queries "" "(") = Raise ReError) /\
  Spec.cell_contains_ci "(" (artist_name Sample.paren) = true /\
  Spec.cell_contains_ci "(" (track_name Sample.paren) = true.
Proof.
  split.
  { intros col D C r Hq Hr Htext.
    exists (fun s => cell_matches r (cell_of col s)). split.
    - rewrite stage_on_text, Htext. unfold text_block. rewrite Hq, Hr.
      by destruct D.
    - intros s. destruct (cell_of col s) as [cell|]; simpl.
      + unfold Re.search. rewrite search_chars_matches. split.
        * intros (a & p & b & Hs & Hm). by exists cell, a, p, b.
        * intros (cell' & a & p & b & [= <-] & Hs & Hm). by exists a, p, b.
      + split; [done|]. by intros (cell & a & p & b & ? & _). }
  split; [split; vm_compute; reflexivity|].
  split; [split; vm_compute; reflexivity|].
  split; [|split; vm_compute; reflexivity].
  intros rest. rewrite !stage_on_block, !apply_blocks, !blocks_source_order.
  by repeat split.
Qed.

Lemma text_filter_is_regex_witness :
  exists keep,
    stage_on Artist [Sample.abc; Sample.xyz; Sample.paren]
      (Sample.text_queries "a.c" "") =
      Ok (List.filter keep [Sample.abc; Sample.xyz; Sample.paren]) /\
    forall s, keep s = true <->
      exists cell a p b,
        artist_name s = Some cell /\
        Chars.chars cell = a ++ p ++ b /\
        Re.matches
          (Re.Cat (Re.Lit "a") (Re.Cat Re.Dot (Re.Cat (Re.Lit "c") Re.Eps))) p.
Proof.
  apply (proj1 text_filter_is_regex ArtistName
           [Sample.abc; Sample.xyz; Sample.paren]
           (Sample.text_queries "a.c" "")); reflexivity.
Defined.

(** ** The year block *)

Lemma filter_decide {A} (p : A -> bool) (P : A -> Prop)
    `{!forall x, Decision (P x)} (l : list A) :
  (forall x, p x = true <-> P x) -> List.filter p l = filter P l.
Proof.
  intros Hiff. induction l as [|x l IH]; [done|].
  rewrite filter_cons. simpl. rewrite IH.
  destruct (decide (P x)) as [HP|HP], (p x) eqn:E; try done.
  - apply Hiff in HP. congruence.
  - apply Hiff in E. done.
Qed.

(** C5: the year block has no guard and keeps exactly the rows whose
    year lies between the two bounds, both included; so every row the
    filter returns has its year between the bounds, whatever the other
    criteria. *)
Theorem year_filter_inclusive D C :
  stage_on Year D C =
    Ok (filter (fun s => fst (year_range C) <= year s <= snd (year_range C)) D)
  /\ (forall R, apply D C = Ok R ->
        Forall (fun s => fst (year_range C) <= year s <= snd (year_range C)) R).
Proof.
  split.
  - rewrite stage_on_block. simpl. f_equal.
    apply filter_decide, in_years_iff.
  - intros R HR. apply Forall_forall. intros s Hs.
    apply list_elem_of_In in Hs.
    by destruct (apply_rows _ _ _ _ HR Hs) as (_ & ? & _).
Qed.

Lemma year_filter_inclusive_witness :
  Forall (fun s => 1990 <= year s <= 2020) [Sample.abc].
Proof.
  apply (year_filter_inclusive Sample.songs Sample.ab_query).
  vm_compute. reflexivity.
Defined.

(** ** Idempotence *)

(** C6: filtering the frame the filter returned, with the same
    criteria, returns that frame again. *)
Theorem apply_idempotent D C R :
  apply D C = Ok R -> apply R C = Ok R.
Proof.
  intros HR. pose proof HR as H.
  rewrite apply_blocks, blocks_source_order in H.
  destruct (text_block _ (artist_query C) _ D) as [F1|] eqn:E1; [|done].
  destruct (text_block _ (track_query C) _ F1) as [F2|] eqn:E2; [|done].
  injection H as HF.
  assert (H2 : forall s, In s R -> In s F2).
  { intros s Hs. rewrite <- HF in Hs.
    apply List.filter_In in Hs as [Hs _]. by apply List.filter_In in Hs as [Hs _]. }
  assert (H1 : forall s, In s R -> In s F1).
  { intros s Hs. apply H2 in Hs. rewrite (text_block_ok _ _ _ _ _ E2) in Hs.
    by apply List.filter_In in Hs as [Hs _]. }
  rewrite apply_blocks, blocks_source_order. simpl.
  rewrite (text_block_again _ _ _ _ _ R E1 H1).
  rewrite (text_block_again _ _ _ _ _ R E2 H2). f_equal.
  rewrite (filter_fixed (in_years C)).
  - apply filter_fixed. intros s Hs.
    by destruct (apply_rows _ _ _ _ HR Hs) as (_ & _ & ?).
  - intros s Hs. apply in_years_iff.
    by destruct (apply_rows _ _ _ _ HR Hs) as (_ & ? & _).
Qed.

Lemma apply_idempotent_witness :
  apply [Sample.abc] Sample.ab_query = Ok [Sample.abc].
Proof.
  apply (apply_idempotent Sample.songs Sample.ab_query). vm_compute. reflexivity.
Defined.

(** ** Order of the blocks *)

Lemma tests_of_returns order dt c :
  (forall st, exists p, test_of st dt c = Ok p) ->
  forall F, exists R, tests_of order dt c F = Ok R.
Proof.
  intros Hall. induction order as [|st order IH]; intros F; simpl; [by eexists|].
  destruct (Hall st) as [p ->]. apply IH.
Qed.

(** C7, as the code has it: two orders of the four blocks that both
    return, return the same frame; and when each query that is not
    empty compiles and its column was read as text, every order returns
    the frame that the order of the source returns.  With a query that
    does not compile an order may return the empty frame where another
    raises, a text block given a frame without rows returning it
    without a look at its pattern. *)
Theorem stages_commute order D C :
  order ≡ₚ source_order ->
  (forall R1 R2,
     apply_in order D C = Ok R1 -> apply D C = Ok R2 -> R1 = R2) /\
  (compiles (artist_query C) -> compiles (track_query C) ->
   (truthy (artist_query C) = true -> Pd.is_text (map artist_name D) = true) ->
   (truthy (track_query C) = true -> Pd.is_text (map track_name D) = true) ->
   exists R, apply D C = Ok R /\ apply_in order D C = Ok R).
Proof.
  intros Hperm. split.
  - intros R1 R2 H1 H2. rewrite apply_in_blocks in H1.
    rewrite (blocks_ok _ _ _ _ _ H1), (apply_filter _ _ _ H2).
    apply List.filter_ext. intros s. by apply order_keeps_perm.
  - intros Ha Ht Hta Htt. rewrite apply_blocks, apply_in_blocks.
    rewrite !blocks_tests by done.
    assert (Hall : forall st, exists p, test_of st (dtypes_of D) C = Ok p).
    { intros [| | |]; simpl; [| |by eexists..]; unfold text_test.
      - destruct (truthy (artist_query C)) eqn:E; [|by eexists].
        rewrite Hta by done. destruct (Ha E) as [r ->]. by eexists.
      - destruct (truthy (track_query C)) eqn:E; [|by eexists].
        rewrite Htt by done. destruct (Ht E) as [r ->]. by eexists. }
    destruct (tests_of_returns source_order _ _ Hall D) as [R HR].
    exists R. split; [done|]. by apply (tests_of_perm _ _ _ _ Hperm).
Qed.

Lemma stages_commute_witness :
  exists R,
    apply Catalog.songs Catalog.all_four = Ok R /\
    apply_in [Genre; Year; Track; Artist] Catalog.songs Catalog.all_four = Ok R.
Proof.
  apply (proj2 (stages_commute [Genre; Year; Track; Artist]
                  Catalog.songs Catalog.all_four
                  (reverse_Permutation source_order))).
  - intros _. eexists. vm_compute. reflexivity.
  - intros _. eexists. vm_compute. reflexivity.
  - reflexivity.
  - reflexivity.
Defined.

(** C7 fails as stated: with the artist query "(" and a year range
    that no row is in, the order of the source raises [re.error], while
    the order year, genre, track, artist returns the empty frame. *)
Lemma stages_do_not_commute :
  [Year; Genre; Track; Artist] ≡ₚ source_order /\
  apply_in [Year; Genre; Track; Artist] Sample.songs Catalog.paren_no_years =
    Ok [] /\
  apply Sample.songs Catalog.paren_no_years = Raise ReError.
Proof.
  split; [|split; vm_compute; reflexivity].
  unfold source_order.
  change [Year; Genre; Track; Artist] with ([Year; Genre] ++ [Track; Artist]).
  change [Artist; Track; Year; Genre] with ([Artist; Track] ++ [Year; Genre]).
  rewrite (Permutation_swap Track Artist []). apply Permutation_app_comm.
Qed.

(** ** The missing file *)

(** C8: when the file does not exist, [load_songs] returns a new empty
    frame after showing the error that the file was not found, and
    [main] returns normally after the warning that there is no data:
    nothing else is put on the page, no metric in particular. *)
Theorem missing_file w σ :
  load_songs None σ =
    (Ok (length (heap σ)),
     State (heap σ ++ [[]]) (page σ ++ [st_error not_found_message])) /\
  (heap σ ++ [[]]) !! length (heap σ) = Some [] /\
  main None w σ =
    (Ok tt,
     State (heap σ ++ [[]])
       (page σ ++
          [st_title "Spotify Songs Search";
           st_markdown "Search and filter through your Spotify songs collection";
           st_markdown "---";
           st_error not_found_message;
           st_warning no_data_message])).
Proof.
  split; [done|]. split; [by apply list_lookup_middle|].
  unfold main, load_songs, emit, alloc, deref, mbind, M_bind, bind. simpl.
  rewrite list_lookup_middle by done. simpl. by rewrite <- !app_assoc.
Qed.

(** ** The store *)

(** C9: the filter leaves every frame of the store as it was, the
    dataset [songs_df] among them, whether it returns or raises, and
    writes nothing on the page; the frame it returns is a new one, at a
    reference that was not in the store and is not [songs_df], also
    when no block drops a row. *)
Theorem search_songs_frame σ songs_df C D :
  heap σ !! songs_df = Some D ->
  (forall l d, heap σ !! l = Some d ->
               heap (snd (search_songs songs_df C σ)) !! l = Some d) /\
  page (snd (search_songs songs_df C σ)) = page σ /\
  (forall filtered_songs,
     fst (search_songs songs_df C σ) = Ok filtered_songs ->
     (length (heap σ) <= filtered_songs)%nat /\
     filtered_songs <> songs_df /\
     exists R,
       heap (snd (search_songs songs_df C σ)) !! filtered_songs = Some R /\
       apply D C = Ok R).
Proof.
  intros HD. rewrite search_songs_source_order, apply_blocks.
  pose proof (lookup_lt_Some _ _ _ HD) as Hlt.
  pose proof (search_songs_in_spec source_order C σ songs_df D HD) as H.
  destruct (blocks_of source_order (dtypes_of D) C D) as [R|e].
  - destruct H as (l' & σ' & -> & Hl' & Hpre & Hpage & Hfresh). simpl.
    split; [intros l d Hl; by eapply prefix_lookup_Some|]. split; [done|].
    intros l0 [= <-]. split; [done|]. split; [lia|]. by exists R.
  - destruct H as (σ' & -> & Hpre & Hpage). simpl.
    split; [intros l d Hl; by eapply prefix_lookup_Some|]. by split.
Qed.

Lemma search_songs_frame_witness :
  heap (snd (search_songs 0%nat Sample.ab_query (initial Sample.songs))) !! 0%nat
    = Some Sample.songs.
Proof.
  apply (proj1 (search_songs_frame (initial Sample.songs) 0%nat Sample.ab_query
                  Sample.songs eq_refl)).
  reflexivity.
Defined.

(** * Further properties of the page *)

(** ** Running [main] *)

Lemma emit_run c σ : emit c σ = (Ok tt, State (heap σ) (page σ ++ [c])).
Proof. done. Qed.

Lemma show_results_run R σ :
  show_results R σ =
    (Ok tt, State (heap σ) (page σ ++ written (show_results R))).
Proof.
  destruct R as [|first rest];
    unfold show_results, written, emit, mbind, M_bind, bind; simpl;
    by rewrite <- ?app_assoc.
Qed.

Lemma show_preview_run D σ :
  show_preview D σ =
    (Ok tt, State (heap σ) (page σ ++ written (show_preview D))).
Proof.
  unfold show_preview, written, emit, mbind, M_bind, bind, mret, M_ret, ret.
  simpl. destruct (10 <? length D)%nat; simpl; by rewrite <- ?app_assoc.
Qed.

(** [main] on a file without rows, and on a missing file. *)
Lemma main_no_rows file w σ :
  file = None \/ file = Some [] ->
  main file w σ =
    (Ok tt,
     State (heap σ ++ [[]])
       (page σ ++ banner ++
        match file with Some _ => [] | None => [st_error not_found_message] end ++
        [st_warning no_data_message])).
Proof.
  intros [->| ->];
    unfold main, load_songs, emit, alloc, deref, mbind, M_bind, bind; simpl;
    rewrite list_lookup_middle by done; simpl; by rewrite <- !app_assoc.
Qed.

(** [main] on a file with rows: the summary, then the preview, or the
    filter and its results, or the exception of the filter. *)
Lemma main_rows first rest w σ :
  exists k,
    main (Some (first :: rest)) w σ =
      if w_search w then
        match apply (first :: rest) (criteria_of w first rest) with
        | Ok R =>
            (Ok tt,
             State (heap σ ++ (first :: rest) :: k)
               (page σ ++ banner ++ summary first rest ++
                written (show_results R)))
        | Raise e =>
            (Raise e,
             State (heap σ ++ (first :: rest) :: k)
               (page σ ++ banner ++ summary first rest))
        end
      else
        (Ok tt,
         State (heap σ ++ [first :: rest])
           (page σ ++ banner ++ summary first rest ++
            written (show_preview (first :: rest)))).
Proof.
  set (D := first :: rest). set (C := criteria_of w first rest).
  set (σ3 := State (heap σ ++ [D]) (page σ ++ banner ++ summary first rest)).
  assert (Hmain : main (Some D) w σ =
            if w_search w then
              (filtered_songs ← search_songs (length (heap σ)) C;
               filtered ← deref filtered_songs;
               show_results filtered) σ3
            else show_preview D σ3).
  { unfold main, load_songs, emit, alloc, deref, mbind, M_bind, bind. simpl.
    rewrite list_lookup_middle by done. unfold σ3, D, banner, summary. simpl.
    rewrite <- !app_assoc. simpl. by destruct (w_search w). }
  rewrite Hmain. destruct (w_search w).
  - assert (HD : heap σ3 !! length (heap σ) = Some D)
      by by apply list_lookup_middle.
    pose proof (search_songs_in_spec source_order C σ3 _ D HD) as H.
    rewrite apply_blocks. unfold mbind, M_bind, bind.
    rewrite search_songs_source_order.
    destruct (blocks_of source_order (dtypes_of D) C D) as [R|e].
    + destruct H as (l' & σ4 & -> & Hl' & [k Hk] & Hpage & _).
      exists k. rewrite (deref_ok _ _ _ Hl'), show_results_run.
      rewrite Hk, Hpage. simpl. by rewrite <- !app_assoc.
    + destruct H as (σ4 & -> & [k Hk] & Hpage).
      exists k. destruct σ4 as [h4 p4]. simpl in *. subst.
      by rewrite <- !app_assoc.
  - exists []. rewrite show_preview_run. simpl. by rewrite <- !app_assoc.
Qed.

Lemma written_results_empty :
  written (show_results []) =
    [st_markdown "---"; st_header "Search Results"; st_error no_match_message].
Proof. reflexivity. Qed.

Lemma written_results_rows first rest :
  written (show_results (first :: rest)) =
    [st_markdown "---"; st_header "Search Results";
     st_success (length (first :: rest));
     st_metric "Artists in Results"
       (Count (Pd.nunique (map artist_name (first :: rest))));
     st_metric "Years Covered" (year_span first rest);
     st_metric "Genres in Results"
       (Count (length (Pd.unique (map genre (first :: rest)))));
     st_dataframe (first :: rest);
     st_download_button (first :: rest)].
Proof. reflexivity. Qed.

(** ** A file without rows *)

(** X1: on a missing file, and on a file from which [read_csv] returns
    a table without rows (a header and nothing else), [main] returns
    normally with the warning that there is no data and without any
    metric, table or download; the error that the file was not found is
    shown for the missing file only. *)
Theorem main_without_rows file w σ :
  file = None \/ file = Some [] ->
  exists new,
    main file w σ = (Ok tt, State (heap σ ++ [[]]) (page σ ++ new)) /\
    warnings new = [no_data_message] /\
    errors new =
      match file with Some _ => [] | None => [not_found_message] end /\
    metrics new = [] /\ frames_shown new = [] /\ downloads new = [].
Proof.
  intros Hf. rewrite (main_no_rows file w σ Hf). eexists. split; [done|].
  by destruct Hf as [-> | ->].
Qed.

Lemma main_without_rows_witness :
  exists new,
    main (Some []) (untouched true) (State [] []) = (Ok tt, State [[]] new) /\
    warnings new = [no_data_message] /\
    errors new = [] /\
    metrics new = [] /\ frames_shown new = [] /\ downloads new = [].
Proof.
  apply (main_without_rows (Some []) (untouched true) (State [] [])).
  right. reflexivity.
Defined.

(** ** The preview *)

(** X2: in a run on a file with rows in which the slider accepts the
    years of the dataset (they are not all equal and are safe integers)
    and the button is not pressed, [main] returns normally whatever the
    text boxes hold, leaves the store with the dataset alone (the
    filter is not run), shows the first ten rows of the dataset and no
    download, and shows the caption with the number of rows exactly
    when there are more than ten. *)
Theorem main_preview first rest w σ :
  w_search w = false ->
  slider_accepts (default_year_range first rest) = true ->
  exists new,
    main (Some (first :: rest)) w σ =
      (Ok tt, State (heap σ ++ [first :: rest]) (page σ ++ new)) /\
    frames_shown new = [take 10 (first :: rest)] /\
    downloads new = [] /\ errors new = [] /\
    captions new =
      (if (10 <? length (first :: rest))%nat
       then [length (first :: rest)] else []).
Proof.
  intros Hw _. destruct (main_rows first rest w σ) as [k Hk].
  rewrite Hw in Hk. rewrite Hk. eexists. split; [done|].
  unfold frames_shown, downloads, errors, captions, banner, summary.
  rewrite !omap_app. unfold written, show_preview, emit, mbind, M_bind, bind,
    mret, M_ret, ret. simpl.
  destruct (10 <? S (length rest))%nat; by repeat split.
Qed.

Lemma main_preview_witness :
  exists new,
    main (Some Sample.songs) (untouched false) (State [] []) =
      (Ok tt, State [Sample.songs] new) /\
    frames_shown new = [Sample.songs] /\
    downloads new = [] /\ errors new = [] /\ captions new = [].
Proof.
  apply (main_preview Sample.abc [Sample.xyz] (untouched false) (State [] []));
    reflexivity.
Defined.

(** ** The results *)

(** X3: when the button is pressed and the filter returns the frame
    [R], [main] returns normally.  With rows in [R] it reports their
    number, and the table and the download both hold exactly [R]; with
    no row in [R] it shows the error that nothing matched and no table,
    no download and no metric beyond the four of the summary. *)
Theorem main_search_results first rest w σ R :
  w_search w = true ->
  apply (first :: rest) (criteria_of w first rest) = Ok R ->
  exists k new,
    main (Some (first :: rest)) w σ =
      (Ok tt, State (heap σ ++ (first :: rest) :: k) (page σ ++ new)) /\
    frames_shown new = (if nonempty R then [R] else []) /\
    downloads new = (if nonempty R then [R] else []) /\
    successes new = (if nonempty R then [length R] else []) /\
    errors new = (if nonempty R then [] else [no_match_message]) /\
    length (metrics new) = (if nonempty R then 7 else 4)%nat.
Proof.
  intros Hw HR. destruct (main_rows first rest w σ) as [k Hk].
  rewrite Hw, HR in Hk. rewrite Hk. exists k. eexists. split; [done|].
  unfold frames_shown, downloads, successes, errors, metrics, banner, summary.
  rewrite !omap_app.
  destruct R as [|r R];
    [rewrite written_results_empty|rewrite written_results_rows];
    by repeat split.
Qed.

Lemma main_search_results_witness :
  exists k new,
    main (Some Sample.songs)
      {| w_artist_name := "ab"; w_track_name := "";
         w_year_range := None; w_selected_genres := None; w_search := true |}
      (State [] []) = (Ok tt, State (Sample.songs :: k) new) /\
    frames_shown new = [[Sample.abc]] /\
    downloads new = [[Sample.abc]] /\
    successes new = [1%nat] /\
    errors new = [] /\
    length (metrics new) = 7%nat.
Proof.
  apply (main_search_results Sample.abc [Sample.xyz]
           {| w_artist_name := "ab"; w_track_name := "";
              w_year_range := None; w_selected_genres := None;
              w_search := true |} (State [] []) [Sample.abc]).
  - reflexivity.
  - vm_compute. reflexivity.
Defined.

(** X4: when the button is pressed and the filter raises, [main] raises
    the same exception after the summary: no result, table or download
    is put on the page. *)
Theorem main_search_raises first rest w σ e :
  w_search w = true ->
  apply (first :: rest) (criteria_of w first rest) = Raise e ->
  exists k new,
    main (Some (first :: rest)) w σ =
      (Raise e, State (heap σ ++ (first :: rest) :: k) (page σ ++ new)) /\
    frames_shown new = [] /\ downloads new = [] /\
    successes new = [] /\ errors new = [] /\
    length (metrics new) = 4%nat.
Proof.
  intros Hw HR. destruct (main_rows first rest w σ) as [k Hk].
  rewrite Hw, HR in Hk. rewrite Hk. exists k. eexists. split; [done|].
  by repeat split.
Qed.

Lemma main_search_raises_witness :
  exists k new,
    main (Some Sample.songs)
      {| w_artist_name := "AC/DC ("; w_track_name := "";
         w_year_range := None; w_selected_genres := None; w_search := true |}
      (State [] []) = (Raise ReError, State (Sample.songs :: k) new) /\
    frames_shown new = [] /\ downloads new = [] /\
    successes new = [] /\ errors new = [] /\
    length (metrics new) = 4%nat.
Proof.
  apply (main_search_raises Sample.abc [Sample.xyz]
           {| w_artist_name := "AC/DC ("; w_track_name := "";
              w_year_range := None; w_selected_genres := None;
              w_search := true |} (State [] []) ReError).
  - reflexivity.
  - vm_compute. reflexivity.
Defined.

(** X5: pressing the button with every widget untouched shows and
    offers for download the whole dataset. *)
Theorem main_untouched_search first rest σ :
  exists k new,
    main (Some (first :: rest)) (untouched true) σ =
      (Ok tt, State (heap σ ++ (first :: rest) :: k) (page σ ++ new)) /\
    frames_shown new = [first :: rest] /\
    downloads new = [first :: rest] /\
    successes new = [length (first :: rest)].
Proof.
  destruct (main_rows first rest (untouched true) σ) as [k Hk].
  assert (HR : apply (first :: rest) (criteria_of (untouched true) first rest)
               = Ok (first :: rest)).
  { set (C := criteria_of (untouched true) first rest).
    apply apply_keeps_all; [done|done| |].
    - intros s Hs. unfold C. simpl.
      destruct (col_min_le (map year rest) (year first)) as [Hm1 Hm2].
      destruct (col_max_ge (map year rest) (year first)) as [HM1 HM2].
      rewrite Forall_forall in Hm2, HM2.
      destruct Hs as [<-|Hs]; [done|].
      assert (year s ∈ map year rest) as Hin
        by apply list_elem_of_In, in_map, Hs.
      split; [by apply Hm2|by apply HM2].
    - intros s Hs. unfold C. simpl. unfold all_genres.
      apply In_sorted, In_unique. by apply (in_map genre). }
  cbn [w_search untouched] in Hk. rewrite HR in Hk. rewrite Hk.
  exists k. eexists. split; [done|].
  unfold frames_shown, downloads, successes, banner, summary.
  rewrite !omap_app, written_results_rows. by repeat split.
Qed.

(** * Further properties of the filter *)

(** ** A frame without rows *)

(** X6: when the artist block leaves no row, the filter returns the
    empty frame whatever the track query is, also one that
    [re.compile] rejects: on a frame without rows [str.contains] gives
    the empty mask without a look at the pattern.  (The track_name
    column must have been read as text when the track query is not
    empty.) *)
Theorem no_rows_no_pattern D C :
  stage_on Artist D C = Ok [] ->
  (truthy (track_query C) = true -> Pd.is_text (map track_name D) = true) ->
  apply D C = Ok [].
Proof.
  rewrite stage_on_block, apply_blocks, blocks_source_order. simpl.
  intros -> Ht. unfold text_block. destruct (truthy (track_query C)); [|done].
  by rewrite Ht.
Qed.

Lemma no_rows_no_pattern_witness :
  apply Sample.songs (Sample.text_queries "zzz" "a)") = Ok [].
Proof.
  apply (no_rows_no_pattern Sample.songs (Sample.text_queries "zzz" "a)"));
    reflexivity.
Defined.

(** ** The filter row by row *)

Lemma is_text_app (c1 c2 : list (option string)) :
  Pd.is_text c1 = true -> Pd.is_text c2 = true -> Pd.is_text (c1 ++ c2) = true.
Proof.
  destruct c1 as [|x c1]; [done|]. intros H1 _. simpl in *.
  rewrite existsb_app.
  destruct x; [done|]. simpl in *. by rewrite H1.
Qed.

Lemma text_block_app t1 t2 t12 q cell F1 F2 G1 G2 :
  text_block t1 q cell F1 = Ok G1 ->
  text_block t2 q cell F2 = Ok G2 ->
  (t1 = true -> t2 = true -> t12 = true) ->
  text_block t12 q cell (F1 ++ F2) = Ok (G1 ++ G2).
Proof.
  unfold text_block. destruct (truthy q); [|by intros [= <-] [= <-] _].
  destruct t1; [|done]. destruct t2; [|done]. intros H1 H2 ->; [|done..].
  destruct F1 as [|a F1], F2 as [|b F2].
  - by injection H1 as <-; injection H2 as <-.
  - by injection H1 as <-.
  - injection H2 as <-. by rewrite !app_nil_r.
  - remember (a :: F1) as A1. remember (b :: F2) as A2.
    assert (HA : A1 ++ A2 = a :: F1 ++ A2) by by subst.
    destruct (Re.compile q) as [r|]; [|by subst].
    injection H1 as <-. injection H2 as <-.
    rewrite <- List.filter_app. rewrite HA. by rewrite <- HA.
Qed.

(** X7: the filter works row by row: the frame it returns on two
    datasets put end to end is the two frames it returns on each, put
    end to end. *)
Theorem apply_app D1 D2 C R1 R2 :
  apply D1 C = Ok R1 -> apply D2 C = Ok R2 ->
  apply (D1 ++ D2) C = Ok (R1 ++ R2).
Proof.
  rewrite !apply_blocks, !blocks_source_order. simpl.
  destruct (text_block _ (artist_query C) _ D1) as [A1|] eqn:EA1; [|done].
  destruct (text_block _ (track_query C) _ A1) as [T1|] eqn:ET1; [|done].
  destruct (text_block _ (artist_query C) _ D2) as [A2|] eqn:EA2; [|done].
  destruct (text_block _ (track_query C) _ A2) as [T2|] eqn:ET2; [|done].
  intros [= <-] [= <-].
  rewrite (text_block_app _ _ _ _ _ _ _ _ _ EA1 EA2)
    by (rewrite map_app; apply is_text_app).
  rewrite (text_block_app _ _ _ _ _ _ _ _ _ ET1 ET2)
    by (rewrite map_app; apply is_text_app).
  by rewrite !List.filter_app.
Qed.

Lemma apply_app_witness :
  apply ([Sample.abc] ++ [Sample.xyz]) Sample.ab_query = Ok ([Sample.abc] ++ []).
Proof.
  apply (apply_app [Sample.abc] [Sample.xyz] Sample.ab_query);
    vm_compute; reflexivity.
Defined.



(** ** Wider criteria *)

Lemma filter_sublist_mono {A} (p q : A -> bool) (l1 l2 : list A) :
  (forall x, p x = true -> q x = true) ->
  l1 `sublist_of` l2 -> List.filter p l1 `sublist_of` List.filter q l2.
Proof.
  intros Hpq. induction 1 as [|x l1 l2 _ IH|x l1 l2 _ IH]; simpl.
  - done.
  - destruct (p x) eqn:E.
    + rewrite (Hpq _ E). by constructor.
    + destruct (q x); [by constructor|done].
  - destruct (q x); [by constructor|done].
Qed.

(** X9: widening the criteria never loses a row: with the same text
    queries, a year range that contains the old one, and a genre
    selection that is empty or contains the old non-empty one, the
    filter returns a frame of which the old result is a subsequence. *)
Theorem apply_monotone D C C' R :
  apply D C = Ok R ->
  artist_query C' = artist_query C -> track_query C' = track_query C ->
  fst (year_range C') <= fst (year_range C) ->
  snd (year_range C) <= snd (year_range C') ->
  selected_genres C' = [] \/
    (selected_genres C <> [] /\
     forall g, In g (selected_genres C) -> In g (selected_genres C')) ->
  exists R', apply D C' = Ok R' /\ R `sublist_of` R'.
Proof.
  intros HR Ha Ht Hlo Hhi Hg.
  rewrite apply_blocks, blocks_source_order in HR.
  rewrite apply_blocks, blocks_source_order, Ha, Ht.
  destruct (text_block _ (artist_query C) _ D) as [F1|]; [|done].
  destruct (text_block _ (track_query C) _ F1) as [F2|]; [|done].
  injection HR as <-. eexists. split; [done|].
  apply filter_sublist_mono.
  { intros s. unfold in_genres. destruct Hg as [->|[Hne Hin]]; [done|].
    destruct (selected_genres C) as [|g gs] eqn:E; [done|]. simpl nonempty.
    cbv iota. rewrite existsb_eqb_In. intros H%Hin.
    destruct (selected_genres C'); [done|]. by apply existsb_eqb_In. }
  apply filter_sublist_mono; [|done].
  intros s. rewrite !in_years_iff. lia.
Qed.

Lemma apply_monotone_witness :
  exists R', apply Catalog.songs Catalog.all_four = Ok R' /\
             [Catalog.abba] `sublist_of` R'.
Proof.
  apply (apply_monotone Catalog.songs Catalog.narrow Catalog.all_four
           [Catalog.abba]).
  - vm_compute. reflexivity.
  - reflexivity.
  - reflexivity.
  - simpl. lia.
  - simpl. lia.
  - right. split; [discriminate|]. simpl. tauto.
Defined.

(** X10: a year range whose lower bound is above its upper bound
    leaves no row. *)
Theorem apply_inverted_years D C R :
  snd (year_range C) < fst (year_range C) ->
  apply D C = Ok R -> R = [].
Proof.
  intros Hinv HR. destruct R as [|s R]; [done|].
  destruct (apply_rows _ _ _ s HR) as (_ & ? & _); [by left|lia].
Qed.

Lemma apply_inverted_years_witness :
  Pd.getitem_mask Sample.songs
    (Pd.mask_and (Pd.ge (map year Sample.songs) 2010)
                 (Pd.le (map year Sample.songs) 2000)) = [].
Proof.
  apply (apply_inverted_years Sample.songs
           {| artist_query := ""; track_query := "";
              year_range := (2010, 2000); selected_genres := [] |}).
  - simpl. lia.
  - vm_compute. reflexivity.
Defined.

(** ** The statistics of the results *)

(** X11: the range shown as "Years Covered" lies inside the range of
    the slider: the least year of the results is not below the lower
    bound, not above the greatest year, which is not above the upper
    bound. *)
Theorem years_covered_in_range D C first rest :
  apply D C = Ok (first :: rest) ->
  fst (year_range C) <= Pd.col_min (year first) (map year rest) /\
  Pd.col_min (year first) (map year rest) <=
    Pd.col_max (year first) (map year rest) /\
  Pd.col_max (year first) (map year rest) <= snd (year_range C).
Proof.
  intros HR.
  assert (Hin : forall y, In y (year first :: map year rest) ->
            fst (year_range C) <= y <= snd (year_range C)).
  { intros y Hy. change (In y (map year (first :: rest))) in Hy.
    apply in_map_iff in Hy as (s & <- & Hs).
    by destruct (apply_rows _ _ _ _ HR Hs) as (_ & ? & _). }
  pose proof (Hin _ (col_min_In (map year rest) (year first))).
  pose proof (Hin _ (col_max_In (map year rest) (year first))).
  destruct (col_min_le (map year rest) (year first)) as [? _].
  destruct (col_max_ge (map year rest) (year first)) as [? _].
  lia.
Qed.

Lemma years_covered_in_range_witness :
  1990 <= Pd.col_min (year Sample.abc) (map year []) /\
  Pd.col_min (year Sample.abc) (map year []) <=
    Pd.col_max (year Sample.abc) (map year []) /\
  Pd.col_max (year Sample.abc) (map year []) <= 2020.
Proof.
  apply (years_covered_in_range Sample.songs Sample.ab_query Sample.abc []).
  vm_compute. reflexivity.
Defined.

Lemma NoDup_unique_from : forall col seen, NoDup (Pd.unique_from seen col).
Proof.
  induction col as [|x col IH]; intros seen; simpl; [constructor|].
  destruct (existsb (String.eqb x) seen); [apply IH|].
  apply NoDup_cons_2; [|apply IH].
  rewrite list_elem_of_In, In_unique_from. simpl. tauto.
Qed.

Lemma NoDup_unique col : NoDup (Pd.unique col).
Proof. apply NoDup_unique_from. Qed.

Lemma length_unique_incl (l1 l2 : list string) :
  (forall x, In x l1 -> In x l2) ->
  (length (Pd.unique l1) <= length (Pd.unique l2))%nat.
Proof.
  intros H. apply submseteq_length, NoDup_submseteq; [apply NoDup_unique|].
  intros x. rewrite !list_elem_of_In, !In_unique. apply H.
Qed.

(** X12: the counts shown for the results never exceed those of the
    summary: the number of rows, of distinct artists and of distinct
    genres of the frame the filter returns are at most those of the
    dataset. *)
Theorem result_counts_bounded D C R :
  apply D C = Ok R ->
  (length R <= length D)%nat /\
  (Pd.nunique (map artist_name R) <= Pd.nunique (map artist_name D))%nat /\
  (length (Pd.unique (map genre R)) <= length (Pd.unique (map genre D)))%nat.
Proof.
  intros HR. rewrite (apply_filter _ _ _ HR).
  split; [apply List.filter_length_le|]. split.
  - unfold Pd.nunique. apply length_unique_incl. intros a.
    rewrite <- !list_elem_of_In, !list_elem_of_omap.
    intros (cell & Hcell & Ha). exists cell. split; [|done].
    apply list_elem_of_In in Hcell. apply list_elem_of_In.
    apply in_map_iff in Hcell as (s & <- & Hs). apply in_map.
    by apply List.filter_In in Hs as [Hs _].
  - apply length_unique_incl. intros g Hg.
    apply in_map_iff in Hg as (s & <- & Hs). apply in_map.
    by apply List.filter_In in Hs as [Hs _].
Qed.

Lemma result_counts_bounded_witness :
  (length [Sample.abc] <= length Sample.songs)%nat /\
  (Pd.nunique (map artist_name [Sample.abc]) <=
     Pd.nunique (map artist_name Sample.songs))%nat /\
  (length (Pd.unique (map genre [Sample.abc])) <=
     length (Pd.unique (map genre Sample.songs)))%nat.
Proof.
  apply (result_counts_bounded Sample.songs Sample.ab_query [Sample.abc]).
  vm_compute. reflexivity.
Defined.

(** ** The options of the genre multiselect *)

Lemma insert_sorted_perm x : forall l, insert_sorted x l ≡ₚ x :: l.
Proof.
  induction l as [|y l IH]; simpl; [done|].
  destruct (String.leb x y); [done|]. rewrite IH. apply Permutation_swap.
Qed.

Lemma sorted_perm : forall l, sorted l ≡ₚ l.
Proof.
  induction l as [|x l IH]; simpl; [done|].
  by rewrite insert_sorted_perm, IH.
Qed.

Lemma ascending_insert x : forall l,
  ascending l = true -> ascending (insert_sorted x l) = true.
Proof.
  induction l as [|y l IH]; intros Hl; [done|].
  simpl insert_sorted. destruct (String.leb x y) eqn:Exy.
  - simpl. simpl in Hl. by rewrite Exy.
  - assert (Hyx : String.leb y x = true).
    { destruct (String.leb_total x y); congruence. }
    destruct l as [|z l]; [simpl; by rewrite Hyx|].
    simpl in Hl. apply andb_prop in Hl as [Hyz Hl].
    specialize (IH Hl). simpl insert_sorted in *.
    destruct (String.leb x z); simpl; simpl in IH.
    + by rewrite Hyx.
    + by rewrite Hyz.
Qed.

Lemma ascending_sorted : forall l, ascending (sorted l) = true.
Proof.
  induction l as [|x l IH]; [done|]. simpl. by apply ascending_insert.
Qed.

(** X13: the options of the genre multiselect, which are also its
    default selection, are exactly the genres of the dataset, each
    once, in ascending order; their number is the one shown as
    "Genres". *)
Theorem all_genres_options D :
  ascending (all_genres D) = true /\
  NoDup (all_genres D) /\
  (forall g, In g (all_genres D) <-> exists s, In s D /\ genre s = g) /\
  length (all_genres D) = length (Pd.unique (map genre D)).
Proof.
  unfold all_genres. split; [apply ascending_sorted|]. split; [|split].
  - rewrite sorted_perm. apply NoDup_unique.
  - intros g. rewrite In_sorted, In_unique, in_map_iff.
    split; [intros (s & <- & Hs)|intros (s & Hs & <-)]; by exists s.
  - by rewrite sorted_perm.
Qed.

(** ** Queries without special characters *)

Lemma in_genres_iff C s :
  in_genres C s = true <->
  selected_genres C = [] \/ In (genre s) (selected_genres C).
Proof.
  unfold in_genres. destruct (selected_genres C) as [|g gs].
  - simpl. split; [by left|done].
  - cbn [nonempty]. rewrite existsb_eqb_In. split; [by right|]. by intros [|].
Qed.

Lemma text_block_plain_iff text q cell F :
  Spec.plain q = true -> (truthy q = true -> text = true) ->
  exists p,
    text_block text q cell F = Ok (List.filter (fun s => p (cell s)) F) /\
    forall c, p c = true <->
      (truthy q = true -> Spec.cell_contains_ci q c = true).
Proof.
  intros Hp Ht. destruct (truthy q) eqn:Hq.
  - rewrite (Ht eq_refl). exists (Spec.cell_contains_ci q).
    split; [by apply text_block_plain|]. intros c. tauto.
  - exists (fun _ => true). unfold text_block. rewrite Hq.
    split; [by rewrite filter_all|]. done.
Qed.

(** X14: with queries that have no special character, on a dataset
    whose text columns were read as text where a query is not empty,
    the filter never raises, and the rows it keeps are exactly those
    that pass all four conditions: artist_name contains the artist
    query and track_name the track query, case ignored, a condition
    with an empty query passing; the year lies in the range; the genre
    is selected or nothing is selected. *)
Theorem apply_plain_queries D C :
  Spec.plain (artist_query C) = true -> Spec.plain (track_query C) = true ->
  (truthy (artist_query C) = true -> Pd.is_text (map artist_name D) = true) ->
  (truthy (track_query C) = true -> Pd.is_text (map track_name D) = true) ->
  exists keep,
    apply D C = Ok (List.filter keep D) /\
    forall s, keep s = true <->
      (truthy (artist_query C) = true ->
       Spec.cell_contains_ci (artist_query C) (artist_name s) = true) /\
      (truthy (track_query C) = true ->
       Spec.cell_contains_ci (track_query C) (track_name s) = true) /\
      fst (year_range C) <= year s <= snd (year_range C) /\
      (selected_genres C = [] \/ In (genre s) (selected_genres C)).
Proof.
  intros Ha Ht Hta Htt.
  destruct (text_block_plain_iff _ _ artist_name D Ha Hta) as (pa & Hpa & Hpa').
  exists (fun s => pa (artist_name s) &&
                   (if truthy (track_query C)
                    then Spec.cell_contains_ci (track_query C) (track_name s)
                    else true)
                   && in_years C s && in_genres C s).
  split.
  - rewrite apply_blocks, blocks_source_order. simpl. rewrite Hpa.
    destruct (text_block_plain_iff _ _ track_name
                (List.filter (fun s => pa (artist_name s)) D) Ht Htt)
      as (pt & Hpt & Hpt').
    rewrite Hpt, !filter_and. f_equal. apply List.filter_ext. intros s.
    assert (Hpt'' : pt (track_name s) =
              (if truthy (track_query C)
               then Spec.cell_contains_ci (track_query C) (track_name s)
               else true)).
    { apply eq_true_iff_eq. rewrite Hpt'.
      destruct (truthy (track_query C)); [tauto|done]. }
    by rewrite Hpt'', !andb_assoc.
  - intros s. rewrite !andb_true_iff, Hpa', in_years_iff, in_genres_iff.
    destruct (truthy (track_query C)); intuition (auto; congruence).
Qed.

Lemma apply_plain_queries_witness :
  exists keep,
    apply Sample.songs Sample.ab_query = Ok (List.filter keep Sample.songs) /\
    forall s, keep s = true <->
      (truthy "ab" = true ->
       Spec.cell_contains_ci "ab" (artist_name s) = true) /\
      (truthy "" = true -> Spec.cell_contains_ci "" (track_name s) = true) /\
      1990 <= year s <= 2020 /\
      (["Pop"; "Rock"]%string = [] \/ In (genre s) ["Pop"; "Rock"]%string).
Proof.
  apply (apply_plain_queries Sample.songs Sample.ab_query); reflexivity.
Defined.

(** ** Escaped queries *)

Section Escape.
Import Chars Re Spec.

Lemma special_not_alnum c : special c = true -> is_ascii_alnum c = false.
Proof.
  unfold special. simpl. rewrite !orb_true_iff.
  intros H. repeat destruct H as [H|H]; try done;
    apply Ascii.eqb_eq in H; by subst.
Qed.

Lemma parse_escape : forall s a its b,
  parse (escape_chars s) [] (Frame a its b) =
    Ok (close_frame (Frame a (rev (map Lit s) ++ its) false)).
Proof.
  induction s as [|c s IH]; intros a its b; [done|].
  cbn [escape_chars]. destruct (special c) eqn:Hc.
  - cbn [parse]. rewrite Ascii.eqb_refl, (special_not_alnum c Hc).
    unfold push_item. cbn [alts items]. rewrite IH. simpl.
    by rewrite <- app_assoc.
  - cbn [parse]. unfold special in Hc. simpl in Hc.
    repeat (apply orb_false_elim in Hc as [? Hc]).
    repeat match goal with H : Ascii.eqb c _ = false |- _ => rewrite H; clear H end.
    simpl. unfold push_item. simpl. rewrite IH. by rewrite <- app_assoc.
Qed.

Lemma compile_escape q :
  compile (escape q) = Ok (fold_right Cat Eps (map Lit (chars q))).
Proof.
  unfold compile, escape, chars, empty_frame.
  rewrite list_ascii_of_string_of_list_ascii, parse_escape.
  unfold close_frame. simpl. by rewrite app_nil_r, branch_rev.
Qed.

Lemma truthy_escape q : truthy (escape q) = truthy q.
Proof.
  unfold escape, chars. destruct q as [|c q]; [done|].
  simpl. by destruct (special c).
Qed.

End Escape.

(** X15: a query in which every special character is preceded by a
    backslash is searched for as it stands: on a dataset whose
    artist_name column was read as text the artist block keeps exactly
    the rows whose artist_name contains the unescaped query, case
    ignored, and the track block likewise. *)
Theorem text_filter_escaped_query col D C q :
  truthy q = true -> query_of col C = escape q ->
  Pd.is_text (map (cell_of col) D) = true ->
  stage_on (stage_of col) D C =
    Ok (List.filter (fun s => Spec.cell_contains_ci q (cell_of col s)) D).
Proof.
  intros Hq HC Htext. rewrite stage_on_text, HC, Htext.
  unfold text_block. rewrite truthy_escape, Hq.
  destruct D as [|s0 D]; [done|]. rewrite compile_escape. f_equal.
  apply List.filter_ext. intros s. destruct (cell_of col s) as [cell|]; [|done].
  simpl. unfold Re.search, Spec.contains_ci. apply search_literals.
Qed.

Lemma text_filter_escaped_query_witness :
  stage_on Artist [Sample.paren; Sample.abc] (Sample.text_queries "a\(B" "") =
    Ok [Sample.paren].
Proof.
  apply (text_filter_escaped_query ArtistName [Sample.paren; Sample.abc]
           (Sample.text_queries "a\(B" "") "a(B"); reflexivity.
Defined.

(** ** Queries that are rejected *)

Section Rejected.
Import Chars Re Spec.

Lemma chars_append (s1 s2 : string) :
  chars (s1 ++ s2)%string = chars s1 ++ chars s2.
Proof.
  unfold chars. induction s1 as [|c s1 IH]; simpl; [done|]. by rewrite IH.
Qed.

Lemma parse_plain_app : forall s rest stack a its b,
  forallb (fun c => negb (special c)) s = true ->
  parse (s ++ rest) stack (Frame a its b) =
    parse rest stack
      (Frame a (rev (map Lit s) ++ its)
         (match s with [] => b | _ :: _ => false end)).
Proof.
  induction s as [|c s IH]; intros rest stack a its b Hs; [done|].
  simpl in Hs. apply andb_prop in Hs as [Hc Hs].
  apply negb_true_iff in Hc. unfold special in Hc. simpl in Hc.
  repeat (apply orb_false_elim in Hc as [? Hc]).
  cbn [app parse].
  repeat match goal with H : Ascii.eqb c _ = false |- _ => rewrite H; clear H end.
  simpl. unfold push_item. simpl.
  rewrite IH by auto. rewrite <- app_assoc. simpl. by destruct s.
Qed.

(** An opening parenthesis followed by anything but a question mark
    opens a group. *)
Lemma parse_open c s stack top :
  Ascii.eqb c "?" = false ->
  parse ("("%char :: c :: s) stack top = parse (c :: s) (top :: stack) empty_frame.
Proof.
  intros Hc. destruct c as [[] [] [] [] [] [] [] []]; try done.
Qed.

Lemma compile_rejected q : rejected q -> compile q = Raise ReError.
Proof.
  unfold compile, plain, empty_frame.
  intros [c q' Hc|q1 q2 H1|q1 q2 H1 H2|q1 H1].
  - simpl in Hc. destruct Hc as [<-|[<-|[<-|[]]]]; reflexivity.
  - rewrite chars_append, parse_plain_app by done. reflexivity.
  - rewrite chars_append, parse_plain_app by done.
    rewrite chars_append. unfold plain in H2.
    destruct (chars q2) as [|c s]; [reflexivity|].
    assert (Hc : Ascii.eqb c "?" = false).
    { simpl in H2. apply andb_prop in H2 as [Hc _].
      apply negb_true_iff in Hc. unfold special in Hc. simpl in Hc.
      repeat (apply orb_false_elim in Hc as [? Hc]). done. }
    change (chars "(" ++ c :: s) with ("("%char :: c :: s).
    rewrite parse_open by done. unfold empty_frame.
    rewrite <- (app_nil_r (c :: s)), parse_plain_app by done. reflexivity.
  - rewrite chars_append, parse_plain_app by done. reflexivity.
Qed.

End Rejected.

(** X16: on a dataset with rows whose column was read as text, a
    text block raises [re.error] when its query starts with a star, a
    plus or a question mark, has a closing parenthesis after plain
    text, has an opening parenthesis between plain texts, or is plain
    text ending with a backslash. *)
Theorem text_filter_rejected_query col first rest C :
  rejected (query_of col C) ->
  Pd.is_text (map (cell_of col) (first :: rest)) = true ->
  stage_on (stage_of col) (first :: rest) C = Raise ReError.
Proof.
  intros H Htext. rewrite stage_on_text, Htext.
  unfold text_block. rewrite (compile_rejected _ H).
  assert (Ht : truthy (query_of col C) = true).
  { destruct H as [c q _|q1 q2 _|q1 q2 _ _|q1 _]; [done|..];
      by destruct q1. }
  by rewrite Ht.
Qed.

Lemma text_filter_rejected_query_witness :
  stage_on Artist Sample.songs (Sample.text_queries "*NSYNC" "") =
    Raise ReError.
Proof.
  apply (text_filter_rejected_query ArtistName Sample.abc [Sample.xyz]
           (Sample.text_queries "*NSYNC" "")).
  - apply (leading_repeat "*" "NSYNC"). simpl. tauto.
  - reflexivity.
Defined.
